(** * AQI calculator: a shallow embedding of [main.py] and its properties

    The calculator works on Python [float]s, which are IEEE 754 binary64
    numbers.  They are modelled here by [spec_float] at precision 53 and
    maximal exponent 1024, with the arithmetic of the Standard Library's
    [SpecFloat] (round to nearest, ties to even), Python [int]s by [Z],
    exceptions by an error monad, [str] by [string] and [dict] by an
    insertion-ordered association list. *)

From Stdlib Require Import ZArith List String Ascii Bool Lia DecimalString.
From Stdlib Require Import Floats.SpecFloat.
Import ListNotations.
Local Open Scope Z_scope.

(** ** The fragment of Python the calculator uses *)

Module Py.

(** The built-in exceptions the arithmetic of the calculator can raise. *)
Inductive exn : Set := ZeroDivisionError | OverflowError | ValueError.

Inductive result (A : Type) : Type :=
| Ok (a : A)
| Raise (e : exn).
Arguments Ok {A} a.
Arguments Raise {A} e.

Definition bind {A B : Type} (r : result A) (k : A -> result B) : result B :=
  match r with
  | Ok a => k a
  | Raise e => Raise e
  end.

(** *** binary64 *)

Definition prec : Z := 53.
Definition emax : Z := 1024.

Definition float : Set := spec_float.

(** A well-formed binary64 value: every Python [float] is one. *)
Definition is_float (x : float) : Prop := valid_binary prec emax x = true.

Definition fadd : float -> float -> float := SFadd prec emax.
Definition fsub : float -> float -> float := SFsub prec emax.
Definition fmul : float -> float -> float := SFmul prec emax.
Definition fle : float -> float -> bool := SFleb.
Definition flt : float -> float -> bool := SFltb.

(** [float(i)] and the implicit conversion of an [int] operand of mixed
    arithmetic: correctly rounded, [OverflowError] beyond the largest
    finite value. *)
Definition of_int (i : Z) : result float :=
  match binary_normalize prec emax i 0 false with
  | S754_infinity _ => Raise OverflowError
  | f => Ok f
  end.

(** The conversion of a small integer, which cannot overflow. *)
Definition Z2F (i : Z) : float := binary_normalize prec emax i 0 false.

(** The decimal literal [num / 10^digits], e.g. [lit 121 1] for [12.1]:
    both operands are exact and the division is correctly rounded, so
    this is the binary64 value nearest to the decimal. *)
Definition lit (num : Z) (digits : Z) : float :=
  SFdiv prec emax (Z2F num) (Z2F (10 ^ digits)).

(** [a / b] on floats: Python raises on a zero divisor. *)
Definition truediv (a b : float) : result float :=
  match b with
  | S754_zero _ => Raise ZeroDivisionError
  | _ => Ok (SFdiv prec emax a b)
  end.

(** The integer nearest to [x / g], ties to the even one ([0 < g]). *)
Definition rne (x g : Z) : Z :=
  let q := x / g in
  match 2 * (x mod g) ?= g with
  | Lt => q
  | Gt => q + 1
  | Eq => if Z.even q then q else q + 1
  end.

Definition round_mag (m : positive) (e : Z) : Z :=
  match e with
  | Zneg p => rne (Zpos m) (2 ^ Zpos p)
  | _ => Zpos m * 2 ^ e
  end.

(** [round(x)] with one argument: the nearest [int], ties to even;
    [OverflowError] on an infinity and [ValueError] on a NaN. *)
Definition round (x : float) : result Z :=
  match x with
  | S754_zero _ => Ok 0
  | S754_finite s m e => Ok (cond_Zopp s (round_mag m e))
  | S754_infinity _ => Raise OverflowError
  | S754_nan => Raise ValueError
  end.

(** *** str: strings over the code points below 256 *)

Definition is_space (c : ascii) : bool :=
  let n := N_of_ascii c in
  (((9 <=? n) && (n <=? 13)) || ((28 <=? n) && (n <=? 32))
   || (n =? 133) || (n =? 160))%N.

Definition lower_char (c : ascii) : ascii :=
  let n := N_of_ascii c in
  if (((65 <=? n) && (n <=? 90))
      || ((192 <=? n) && (n <=? 222) && negb (n =? 215)))%N
  then ascii_of_N (n + 32) else c.

Fixpoint lower (s : string) : string :=
  match s with
  | EmptyString => EmptyString
  | String c s' => String (lower_char c) (lower s')
  end.

Fixpoint lstrip (s : string) : string :=
  match s with
  | EmptyString => EmptyString
  | String c s' => if is_space c then lstrip s' else s
  end.

Fixpoint rstrip (s : string) : string :=
  match s with
  | EmptyString => EmptyString
  | String c s' =>
      match rstrip s' with
      | EmptyString => if is_space c then EmptyString else String c EmptyString
      | t => String c t
      end
  end.

Definition strip (s : string) : string := rstrip (lstrip s).

(** *** dict: insertion-ordered, keys pairwise distinct *)

Definition dict (V : Type) : Type := list (string * V).

Definition keys {V : Type} (d : dict V) : list string := map fst d.
Definition values {V : Type} (d : dict V) : list V := map snd d.

Definition wf_dict {V : Type} (d : dict V) : Prop := NoDup (keys d).

Fixpoint get {V : Type} (d : dict V) (k : string) : option V :=
  match d with
  | [] => None
  | (k', v) :: d' => if String.eqb k k' then Some v else get d' k
  end.

(** [d[k] = v]: an existing key keeps its position. *)
Fixpoint set {V : Type} (d : dict V) (k : string) (v : V) : dict V :=
  match d with
  | [] => [(k, v)]
  | (k', v') :: d' =>
      if String.eqb k k' then (k', v) :: d' else (k', v') :: set d' k v
  end.

(** [max(l)] of a non-empty list; the caller guards the empty case. *)
Definition max (l : list Z) : option Z :=
  match l with
  | [] => None
  | x :: t => Some (fold_left Z.max t x)
  end.

End Py.

Import Py.

Notation "x <- c1 ;; c2" := (bind c1 (fun x => c2))
  (at level 61, c1 at next level, right associativity).

(** ** main.py *)

(** Each entry: (BP_lo, BP_hi, I_lo, I_hi).  The concentration bounds have
    type [float] in the source; the integer literals of the PM10 table are
    exact in binary64 and Python's mixed arithmetic and comparisons agree
    with their conversion. *)
Definition breakpoint : Set := (float * float * Z * Z)%type.

Definition bp_lo (bp : breakpoint) : float := fst (fst (fst bp)).
Definition bp_hi (bp : breakpoint) : float := snd (fst (fst bp)).
Definition i_lo (bp : breakpoint) : Z := snd (fst bp).
Definition i_hi (bp : breakpoint) : Z := snd bp.

Definition PM25_BREAKPOINTS : list breakpoint :=
  [ (lit 0 1,    lit 120 1,  0,   50);
    (lit 121 1,  lit 354 1,  51,  100);
    (lit 355 1,  lit 554 1,  101, 150);
    (lit 555 1,  lit 1504 1, 151, 200);
    (lit 1505 1, lit 2504 1, 201, 300);
    (lit 2505 1, lit 3504 1, 301, 400);
    (lit 3505 1, lit 5004 1, 401, 500) ].

Definition PM10_BREAKPOINTS : list breakpoint :=
  [ (Z2F 0,   Z2F 54,  0,   50);
    (Z2F 55,  Z2F 154, 51,  100);
    (Z2F 155, Z2F 254, 101, 150);
    (Z2F 255, Z2F 354, 151, 200);
    (Z2F 355, Z2F 424, 201, 300);
    (Z2F 425, Z2F 504, 301, 400);
    (Z2F 505, Z2F 604, 401, 500) ].

(** [bp_lo <= C <= bp_hi] *)
Definition in_range (C : float) (bp : breakpoint) : bool :=
  let '(bp_lo, bp_hi, _, _) := bp in fle bp_lo C && fle C bp_hi.

Fixpoint aqi_for_concentration (C : float) (breakpoints : list breakpoint)
  : result (option Z) :=
  match breakpoints with
  | [] => Ok None
  | (bp_lo, bp_hi, i_lo, i_hi) :: rest =>
      if fle bp_lo C && fle C bp_hi then
        di <- of_int (i_hi - i_lo) ;;
        slope <- truediv di (fsub bp_hi bp_lo) ;;
        ilo <- of_int i_lo ;;
        aqi <- round (fadd (fmul slope (fsub C bp_lo)) ilo) ;;
        Ok (Some aqi)
      else aqi_for_concentration C rest
  end.

(** The calculator as the specification words it: the first range that
    contains the value, and [round(i_lo + (i_hi - i_lo) / (c_hi - c_lo) *
    (value - c_lo))] there. *)
Definition index_for_concentration (value : float) (table : list breakpoint)
  : result (option Z) :=
  match find (in_range value) table with
  | Some (c_lo, c_hi, i_lo, i_hi) =>
      di <- of_int (i_hi - i_lo) ;;
      slope <- truediv di (fsub c_hi c_lo) ;;
      ilo <- of_int i_lo ;;
      n <- round (fadd ilo (fmul slope (fsub value c_lo))) ;;
      Ok (Some n)
  | None => Ok None
  end.

(** The open intervals between one range of a table and the next. *)
Fixpoint gaps (bps : list breakpoint) : list (float * float) :=
  match bps with
  | [] => []
  | a :: rest =>
      match rest with
      | [] => []
      | b :: _ => (bp_hi a, bp_lo b) :: gaps rest
      end
  end.

Definition in_gap (C : float) (bps : list breakpoint) : bool :=
  existsb (fun g => flt (fst g) C && flt C (snd g)) (gaps bps).

Definition aqi_category (aqi : Z) : string :=
  if aqi <=? 50 then "Good"
  else if aqi <=? 100 then "Moderate"
  else if aqi <=? 150 then "Unhealthy for Sensitive Groups"
  else if aqi <=? 200 then "Unhealthy"
  else if aqi <=? 300 then "Very Unhealthy"
  else "Hazardous".

(** A numeric reading, as the demo has them: an [int] or a [float]. *)
Inductive number : Set :=
| Int (i : Z)
| Float (x : float).

(** [float(v)]: the identity on a [float], the conversion of an [int], which
    raises [OverflowError] beyond the range of the floats. *)
Definition to_float (v : number) : result float :=
  match v with
  | Int i => of_int i
  | Float x => Ok x
  end.

(** The body of the loop of [compute_aqi_for_pollutants] for one item:
    [float(v)] is evaluated in the two branches of the supported keys
    only. *)
Definition aqi_for_pollutant (k : string) (v : number) : result (option Z) :=
  let key := lower (strip k) in
  if (String.eqb key "pm2.5" || String.eqb key "pm25")%bool then
    C <- to_float v ;;
    aqi_for_concentration C PM25_BREAKPOINTS
  else if String.eqb key "pm10" then
    C <- to_float v ;;
    aqi_for_concentration C PM10_BREAKPOINTS
  else Ok None.

Definition compute_aqi_for_pollutants (concs : dict number)
  : result (dict (option Z)) :=
  fold_left
    (fun acc kv =>
       results <- acc ;;
       r <- aqi_for_pollutant (fst kv) (snd kv) ;;
       Ok (set results (fst kv) r))
    concs (Ok []).

(** The keys whose reading is converted: 'pm2.5', 'pm25' and 'pm10', up to
    case and surrounding white space. *)
Definition supported (k : string) : bool :=
  let key := lower (strip k) in
  (String.eqb key "pm2.5" || String.eqb key "pm25" || String.eqb key "pm10")%bool.

(** A reading [float(v)] converts: a float, or an [int] whose conversion
    does not overflow. *)
Definition readable (v : number) : Prop :=
  match v with
  | Int i => of_int i = Ok (Z2F i)
  | Float x => is_float x
  end.

(** The demo of [__main__]: the readings and the overall index. *)
Definition sample : dict number :=
  [ ("PM2.5"%string, Float (lit 350 1)); ("PM10"%string, Int 80);
    ("CO"%string, Float (lit 7 1)) ].

Definition valid_aqis (aqi_results : dict (option Z)) : list Z :=
  flat_map (fun v => match v with Some i => [i] | None => [] end)
           (values aqi_results).

Definition overall (aqi_results : dict (option Z)) : option Z :=
  match valid_aqis aqi_results with
  | [] => None
  | l => Py.max l
  end.

(** ** Exact values of binary64 numbers

    Every finite binary64 number, and every exact sum, difference and
    product of two of them, is an integer multiple of [2^-2148]: values are
    counted in that unit, so that the arithmetic of the proofs is that of
    [Z]. *)

Module Dyadic.

Definition bias : Z := 2148.

(** [2^e], in units. *)
Definition B (e : Z) : Z := 2 ^ (e + bias).

(** The value of a float, in units (0 for what has none). *)
Definition V (x : float) : Z :=
  match x with
  | S754_finite s m e => cond_Zopp s (Zpos m * B e)
  | _ => 0
  end.

(** The exponent [e] such that [2^(e-1) <= x < 2^e], for [0 < x] in units. *)
Definition mag (x : Z) : Z := Z.log2 x + 1 - bias.

(** Rounding to nearest, ties to even, onto the binary64 grid around [x]. *)
Definition rnd (x : Z) : Z :=
  let g := B (fexp prec emax (mag x)) in rne x g * g.

(** The largest finite binary64 value. *)
Definition MAXV : Z := (2 ^ 53 - 1) * B 971.

(** [r] is a non-negative finite float of value [v]. *)
Definition repr (r : float) (v : Z) : Prop :=
  match r with
  | S754_zero _ => v = 0
  | S754_finite false m e => Zpos m * B e = v /\ -1074 <= e <= 971
  | _ => False
  end.

(** What the rounding of a right shift knows about the shifted number [x]:
    where it lies between [m * P] and [(m + 1) * P]. *)
Definition inb (x P : Z) (r : shr_record) : Prop :=
  0 <= shr_m r /\
  match shr_r r, shr_s r with
  | false, false => x = shr_m r * P
  | false, true => shr_m r * P < x /\ 2 * x < (2 * shr_m r + 1) * P
  | true, false => 2 * x = (2 * shr_m r + 1) * P
  | true, true => (2 * shr_m r + 1) * P < 2 * x /\ x < (shr_m r + 1) * P
  end.

Definition nonneg_finite (x : float) : bool :=
  match x with
  | S754_zero _ | S754_finite false _ _ => true
  | _ => false
  end.

(** The values of [x - y], [s * d] for [s = ms * 2^es] with [es <= 0], and
    [t + i], on non-negative operands with [y <= x]. *)
Definition vsub (vx vy : Z) : Z := if vy =? 0 then vx else rnd (vx - vy).

Definition vmul (ms : positive) (es : Z) (vd : Z) : Z :=
  rnd (Zpos ms * vd / 2 ^ (- es)).

Definition vadd (vt vi : Z) : Z :=
  if vi =? 0 then vt else if vt =? 0 then vi else rnd (vt + vi).

(** The value the loop body of [aqi_for_concentration] rounds, and the
    index it returns, for a concentration of value [vC] in an entry whose
    lower bound has value [vlo], slope [ms * 2^es] and lower index of
    value [vi]. *)
Definition vaqi (vlo : Z) (ms : positive) (es : Z) (vi : Z) (vC : Z) : Z :=
  vadd (vmul ms es (vsub vC vlo)) vi.

(** The integer nearest to a value in units, ties to even. *)
Definition rne_units (v : Z) : Z := rne v (B 0).

Definition vindex (vlo : Z) (ms : positive) (es : Z) (vi : Z) (vC : Z) : Z :=
  rne_units (vaqi vlo ms es vi vC).

End Dyadic.

(** ** The invariant of a breakpoint table, as a decision procedure

    An entry is sound when its bounds are non-negative binary64 numbers,
    its slope is a positive number not above one binade, nothing overflows
    at its upper bound and its two ends map into [i_lo, i_hi]. *)

Definition entry_ok (bp : breakpoint) : bool :=
  let '(bp_lo, bp_hi, i_lo, i_hi) := bp in
  match of_int (i_hi - i_lo), of_int i_lo with
  | Ok di, Ok ilo =>
      match truediv di (fsub bp_hi bp_lo) with
      | Ok (S754_finite false ms es) =>
          let vlo := Dyadic.V bp_lo in
          let vhi := Dyadic.V bp_hi in
          let vi := Dyadic.V ilo in
          let vd := Dyadic.vsub vhi vlo in
          let vt := Dyadic.vmul ms es vd in
          Dyadic.nonneg_finite bp_lo && Dyadic.nonneg_finite bp_hi
          && Dyadic.nonneg_finite ilo
          && valid_binary prec emax bp_lo && valid_binary prec emax bp_hi
          && valid_binary prec emax ilo
          && (-1074 <=? es) && (es <=? 0)
          && (vlo <=? vhi) && (vhi <=? Dyadic.MAXV)
          && (Zpos ms * vd / 2 ^ (- es) <=? Dyadic.MAXV)
          && (vt + vi <=? Dyadic.MAXV)
          && (Dyadic.rnd vi =? vi)
          && (i_lo <=? Dyadic.rne_units vi)
          && (Dyadic.rne_units (Dyadic.vadd vt vi) <=? i_hi)
      | _ => false
      end
  | _, _ => false
  end.

(** The index of a sound entry as a function of the value of the
    concentration. *)
Definition entry_index (bp : breakpoint) (vC : Z) : Z :=
  let '(bp_lo, bp_hi, i_lo, i_hi) := bp in
  match of_int (i_hi - i_lo), of_int i_lo with
  | Ok di, Ok ilo =>
      match truediv di (fsub bp_hi bp_lo) with
      | Ok (S754_finite false ms es) =>
          Dyadic.vindex (Dyadic.V bp_lo) ms es (Dyadic.V ilo) vC
      | _ => 0
      end
  | _, _ => 0
  end.

(** What [entry_ok] establishes. *)
Record sound_entry (lo hi : float) (il ih : Z)
       (di ilo : float) (ms : positive) (es : Z) : Prop := {
  se_di : of_int (ih - il) = Ok di;
  se_ilo : of_int il = Ok ilo;
  se_slope : truediv di (fsub hi lo) = Ok (S754_finite false ms es);
  se_lo : Dyadic.nonneg_finite lo = true /\ is_float lo;
  se_hi : Dyadic.nonneg_finite hi = true /\ is_float hi;
  se_fi : Dyadic.nonneg_finite ilo = true /\ is_float ilo;
  se_es : -1074 <= es <= 0;
  se_le : Dyadic.V lo <= Dyadic.V hi <= Dyadic.MAXV;
  se_mul : Zpos ms * Dyadic.vsub (Dyadic.V hi) (Dyadic.V lo) / 2 ^ (- es)
           <= Dyadic.MAXV;
  se_add : Dyadic.vmul ms es (Dyadic.vsub (Dyadic.V hi) (Dyadic.V lo))
           + Dyadic.V ilo <= Dyadic.MAXV;
  se_rnd : Dyadic.rnd (Dyadic.V ilo) = Dyadic.V ilo;
  se_low : il <= Dyadic.rne_units (Dyadic.V ilo);
  se_high : Dyadic.vindex (Dyadic.V lo) ms es (Dyadic.V ilo) (Dyadic.V hi) <= ih
}.

(** [a] lies wholly below [b], in concentration and in index. *)
Definition below (a b : breakpoint) : bool :=
  let '(_, a_hi, _, ai_hi) := a in
  let '(b_lo, _, bi_lo, _) := b in
  (Dyadic.V a_hi <? Dyadic.V b_lo) && (ai_hi <=? bi_lo).

Fixpoint ascending (bps : list breakpoint) : bool :=
  match bps with
  | [] => true
  | bp :: rest => forallb (below bp) rest && ascending rest
  end.

Definition table_ok (bps : list breakpoint) : bool :=
  forallb entry_ok bps && ascending bps.

(** ** print_aqi_table *)

(** [str(i)] of an [int]. *)
Definition str (i : Z) : string := NilZero.string_of_int (Z.to_int i).



Definition row : Set := (string * string * string * string)%type.



Section PrintTable.

(** [f"{conc}"], the text Python gives a reading: the table depends on it
    only through the string it yields. *)
Variable format_conc : number -> string.

(** The rows [print_aqi_table] builds; [aqi_map.get(pollutant)] is [None]
    for a missing key as for an undefined index. *)
Definition table_rows (concs : dict number) (aqi_map : dict (option Z))
  : list row :=
  map (fun kv =>
         let pollutant := fst kv in
         let conc := snd kv in
         let aqi := match get aqi_map pollutant with
                    | Some a => a
                    | None => None
                    end in
         let cat := match aqi with
                    | Some i => aqi_category i
                    | None => "N/A"%string
                    end in
         (pollutant, format_conc conc,
          match aqi with Some i => str i | None => "N/A"%string end, cat))
      concs.






End PrintTable.

(** ** The meter: CATEGORIES and AQIMeterApp *)

(** AQI categories with colors and ranges. *)
Definition CATEGORIES : list (string * Z * Z * string) :=
  [ ("Good"%string, 0, 50, "#00e400"%string);
    ("Moderate"%string, 51, 100, "#ffff00"%string);
    ("Unhealthy for Sensitive"%string, 101, 150, "#ff7e00"%string);
    ("Unhealthy"%string, 151, 200, "#ff0000"%string);
    ("Very Unhealthy"%string, 201, 300, "#8f3f97"%string);
    ("Hazardous"%string, 301, 500, "#7e0023"%string) ].

Fixpoint first_category (cats : list (string * Z * Z * string)) (aqi : Z)
  : string * string :=
  match cats with
  | [] => ("Out of range"%string, "#666"%string)
  | (name, start, stop, color) :: rest =>
      if (start <=? aqi) && (aqi <=? stop) then (name, color)
      else first_category rest aqi
  end.

Definition aqi_to_category (aqi : Z) : string * string :=
  first_category CATEGORIES aqi.

(** [max(0, min(500, int(aqi)))] of [update_meter], on an [int]. *)
Definition clamp (aqi : Z) : Z := Z.max 0 (Z.min 500 aqi).

Definition canvas_width : Z := 600.

(** [x = (aqi / 500) * self.canvas_width]: the true division of two small
    integers is the correctly rounded quotient of their conversions. *)
Definition pointer_x (aqi : Z) : float :=
  fmul (SFdiv prec emax (Z2F aqi) (Z2F 500)) (Z2F canvas_width).

(** What [update_meter] shows for a reading: the clamped value, the name
    and the colour of its category, and the abscissa of the pointer. *)
Definition update_meter (reading : Z) : Z * (string * string) * float :=
  let aqi := clamp reading in
  (aqi, aqi_to_category aqi, pointer_x aqi).

(** A float that is a number: neither an infinity nor a NaN. *)
Definition finite (x : float) : bool :=
  match x with
  | S754_zero _ | S754_finite _ _ _ => true
  | _ => false
  end.

(** * Properties *)

Import Dyadic.

(** ** Rounding *)

Lemma B_pos e : - bias <= e -> 0 < B e.
Proof. intros H. unfold B. apply Z.pow_pos_nonneg; lia. Qed.

Lemma B_add e n : - bias <= e -> 0 <= n -> B (e + n) = B e * 2 ^ n.
Proof.
  intros He Hn. unfold B.
  replace (e + n + bias) with (e + bias + n) by lia.
  apply Z.pow_add_r; lia.
Qed.

Lemma B_le e1 e2 : - bias <= e1 <= e2 -> B e1 <= B e2.
Proof. intros H. unfold B. apply Z.pow_le_mono_r; lia. Qed.

Lemma B_lt e1 e2 : - bias <= e1 < e2 -> B e1 < B e2.
Proof. intros H. unfold B. apply Z.pow_lt_mono_r; lia. Qed.

Lemma digits2_size p : digits2_pos p = Pos.size p.
Proof. induction p; simpl; congruence. Qed.

Lemma digits2_bounds p :
  2 ^ (Zpos (digits2_pos p) - 1) <= Zpos p < 2 ^ Zpos (digits2_pos p).
Proof.
  rewrite digits2_size. split.
  - pose proof (Pos.size_le p) as H.
    apply Pos2Z.pos_le_pos in H. rewrite Pos2Z.inj_pow, (Pos2Z.inj_xO p) in H.
    assert (E : 2 ^ Zpos (Pos.size p) = 2 * 2 ^ (Zpos (Pos.size p) - 1)).
    { rewrite <- Z.pow_succ_r by lia. f_equal. lia. }
    lia.
  - pose proof (Pos.size_gt p) as H.
    apply Pos2Z.pos_lt_pos in H. now rewrite Pos2Z.inj_pow in H.
Qed.

Lemma digits2_unique p j :
  2 ^ (j - 1) <= Zpos p < 2 ^ j -> Zpos (digits2_pos p) = j.
Proof.
  intros [H1 H2]. pose proof (digits2_bounds p) as [H3 H4].
  set (d := Zpos (digits2_pos p)) in *.
  assert (0 < d) by (unfold d; lia).
  assert (0 < j).
  { destruct (Z_lt_le_dec 0 j); [assumption|].
    rewrite (Z.pow_neg_r 2 (j - 1)) in H1 by lia.
    destruct (Z.eq_dec j 0) as [->|]; [simpl in H2; lia|].
    rewrite Z.pow_neg_r in H2 by lia. lia. }
  destruct (Z_lt_le_dec d j) as [Hlt|Hge].
  - assert (2 ^ d <= 2 ^ (j - 1)) by (apply Z.pow_le_mono_r; lia). lia.
  - destruct (Z.eq_dec d j) as [|Hne]; [assumption|].
    assert (2 ^ j <= 2 ^ (d - 1)) by (apply Z.pow_le_mono_r; lia). lia.
Qed.

(** *** [rne] *)

Lemma rne_spec x g :
  0 < g ->
  (2 * rne x g - 1) * g <= 2 * x <= (2 * rne x g + 1) * g /\
  (2 * x = (2 * rne x g - 1) * g \/ 2 * x = (2 * rne x g + 1) * g ->
   Z.even (rne x g) = true).
Proof.
  intros Hg. unfold rne.
  pose proof (Z.div_mod x g ltac:(lia)) as Hdm.
  pose proof (Z.mod_pos_bound x g Hg) as Hr.
  set (q := x / g) in *. set (r := x mod g) in *.
  destruct (Z.compare_spec (2 * r) g) as [He|Hl|Hgt].
  - destruct (Z.even q) eqn:Hev.
    + split; [nia|]. intros _. assumption.
    + split; [nia|]. intros _.
      rewrite Z.even_add, Hev. reflexivity.
  - split; [nia|]. intros [H|H]; exfalso; nia.
  - split; [nia|]. intros [H|H]; exfalso; nia.
Qed.

Lemma rne_unique x g k :
  0 < g ->
  (2 * k - 1) * g <= 2 * x <= (2 * k + 1) * g ->
  (2 * x = (2 * k - 1) * g \/ 2 * x = (2 * k + 1) * g -> Z.even k = true) ->
  rne x g = k.
Proof.
  intros Hg Hk Hev.
  destruct (rne_spec x g Hg) as [Hr Hrev].
  set (r := rne x g) in *.
  assert (Hcases : r = k \/ r = k + 1 \/ k = r + 1) by nia.
  destruct Hcases as [?|[E|E]]; [assumption| |]; exfalso.
  - assert (E1 : 2 * x = (2 * r - 1) * g) by nia.
    assert (E2 : 2 * x = (2 * k + 1) * g) by nia.
    specialize (Hrev (or_introl E1)). specialize (Hev (or_intror E2)).
    subst r. rewrite E, Z.even_add, Hev in Hrev. discriminate.
  - assert (E1 : 2 * x = (2 * r + 1) * g) by nia.
    assert (E2 : 2 * x = (2 * k - 1) * g) by nia.
    specialize (Hrev (or_intror E1)). specialize (Hev (or_introl E2)).
    rewrite E, Z.even_add, Hrev in Hev. discriminate.
Qed.

Lemma rne_le x y g : 0 < g -> x <= y -> rne x g <= rne y g.
Proof.
  intros Hg Hxy.
  destruct (rne_spec x g Hg) as [Hx Hxe].
  destruct (rne_spec y g Hg) as [Hy Hye].
  set (a := rne x g) in *. set (b := rne y g) in *.
  destruct (Z_le_gt_dec a b) as [|Hgt]; [assumption|exfalso].
  assert (E : a = b + 1) by nia.
  assert (E1 : 2 * x = (2 * a - 1) * g) by nia.
  assert (E2 : 2 * y = (2 * b + 1) * g) by nia.
  specialize (Hxe (or_introl E1)). specialize (Hye (or_intror E2)).
  rewrite E, Z.even_add, Hye in Hxe. discriminate.
Qed.

Lemma rne_mult k g : 0 < g -> rne (k * g) g = k.
Proof.
  intros Hg. unfold rne.
  rewrite Z.div_mul, Z.mod_mul by lia.
  destruct (Z.compare_spec (2 * 0) g); lia.
Qed.

Lemma rne_scale x g c : 0 < g -> 0 < c -> rne (x * c) (g * c) = rne x g.
Proof.
  intros Hg Hc. unfold rne.
  rewrite Z.div_mul_cancel_r, Z.mul_mod_distr_r by lia.
  replace (2 * (x mod g * c)) with (2 * (x mod g) * c) by ring.
  rewrite <- Zmult_compare_compat_r by lia. reflexivity.
Qed.

Lemma rne_nonneg x g : 0 < g -> 0 <= x -> 0 <= rne x g.
Proof.
  intros Hg Hx. rewrite <- (rne_mult 0 g Hg). apply rne_le; lia.
Qed.

(** *** Right shifts *)

Lemma shr_1_inb x P r : 0 < P -> inb x P r -> inb x (2 * P) (shr_1 r).
Proof.
  intros HP [Hm H]. destruct r as [m r s]. cbn [shr_m shr_r shr_s] in Hm, H.
  destruct m as [|p|p]; [| |lia].
  - destruct r, s; unfold inb; cbn [shr_1 shr_m shr_r shr_s orb]; lia.
  - destruct p as [p|p|];
      [rewrite (Pos2Z.inj_xI p) in H|rewrite (Pos2Z.inj_xO p) in H|];
      destruct r, s; unfold inb; cbn [shr_1 shr_m shr_r shr_s orb];
      (split; [lia|]); nia.
Qed.

Lemma iter_pos_inb p : forall x P r,
  0 < P -> inb x P r -> inb x (P * 2 ^ Zpos p) (iter_pos shr_1 p r).
Proof.
  assert (Hpow : forall q, 0 < 2 ^ Zpos q)
    by (intros q; apply Z.pow_pos_nonneg; lia).
  induction p as [p IH|p IH|]; intros x P r HP H; simpl iter_pos.
  - replace (P * 2 ^ Zpos p~1) with (2 * P * 2 ^ Zpos p * 2 ^ Zpos p).
    + pose proof (Hpow p).
      apply IH; [nia|apply IH; [lia|now apply shr_1_inb]].
    + replace (Zpos p~1) with (Zpos p + Zpos p + 1) by lia.
      rewrite !Z.pow_add_r, Z.pow_1_r by lia. ring.
  - replace (P * 2 ^ Zpos p~0) with (P * 2 ^ Zpos p * 2 ^ Zpos p).
    + pose proof (Hpow p). apply IH; [nia|apply IH; assumption].
    + replace (Zpos p~0) with (Zpos p + Zpos p) by lia.
      rewrite Z.pow_add_r by lia. ring.
  - rewrite Z.pow_1_r, Z.mul_comm. now apply shr_1_inb.
Qed.

Lemma inb_rne x P r :
  0 < P -> inb x P r ->
  round_nearest_even (shr_m r) (loc_of_shr_record r) = rne x P.
Proof.
  intros HP [Hm H]. symmetry. destruct r as [m r s].
  cbn [shr_m shr_r shr_s] in Hm, H.
  destruct r, s; cbn [round_nearest_even loc_of_shr_record shr_m];
    apply rne_unique; try assumption.
  - nia.
  - intros [E|E]; exfalso; nia.
  - destruct (Z.even m); nia.
  - destruct (Z.even m) eqn:Hev; [intros; assumption|].
    intros _. rewrite Z.even_add, Hev. reflexivity.
  - nia.
  - intros [E|E]; exfalso; nia.
  - nia.
  - intros [E|E]; exfalso; nia.
Qed.

(** *** Rounding a mantissa *)

Lemma fexp_eq z : fexp prec emax z = Z.max (z - 53) (-1074).
Proof. reflexivity. Qed.

Lemma mag_val m e :
  - bias <= e -> mag (Zpos m * B e) = Zpos (digits2_pos m) + e.
Proof.
  intros He. unfold mag.
  assert (Hbias : bias = 2148) by reflexivity.
  pose proof (digits2_bounds m) as [H1 H2].
  set (d := Zpos (digits2_pos m)) in *.
  assert (Hd : 0 < d) by (unfold d; lia).
  assert (HB : 0 < B e) by now apply B_pos.
  rewrite (Z.log2_unique (Zpos m * B e) (d - 1 + (e + bias))); [lia|lia|].
  replace (Z.succ (d - 1 + (e + bias))) with (d + (e + bias)) by lia.
  rewrite (Z.pow_add_r 2 (d - 1) (e + bias)),
    (Z.pow_add_r 2 d (e + bias)) by lia.
  unfold B in *.
  set (P := 2 ^ (e + bias)) in *.
  split; [apply Z.mul_le_mono_nonneg_r|apply Z.mul_lt_mono_pos_r]; lia.
Qed.

Lemma rnd_exact k e0 :
  0 < k -> - bias <= e0 ->
  fexp prec emax (mag (k * B e0)) <= e0 -> rnd (k * B e0) = k * B e0.
Proof.
  intros Hk He0 Hf. unfold rnd.
  assert (Hbias : bias = 2148) by reflexivity.
  set (f := fexp prec emax (mag (k * B e0))) in *.
  assert (Hf' : -1074 <= f) by (unfold f; rewrite fexp_eq; lia).
  assert (E : B e0 = 2 ^ (e0 - f) * B f).
  { replace e0 with (f + (e0 - f)) at 1 by lia.
    rewrite B_add by lia. ring. }
  rewrite E, Z.mul_assoc, rne_mult; [reflexivity|].
  apply B_pos. lia.
Qed.

Lemma rnd_0 : rnd 0 = 0.
Proof. reflexivity. Qed.

Lemma shr_fexp_noshift k e :
  fexp prec emax (Zdigits2 k + e) <= e ->
  shr_fexp prec emax k e loc_Exact = (Build_shr_record k false false, e).
Proof.
  intros H. unfold shr_fexp.
  destruct (fexp prec emax (Zdigits2 k + e) - e) eqn:E; try reflexivity.
  lia.
Qed.

Lemma pow2_53 : 2 ^ 53 = 9007199254740992.
Proof. reflexivity. Qed.

Lemma binary_round_aux_repr m e :
  - bias <= e <= 971 -> Zpos m * B e <= MAXV ->
  repr (binary_round_aux prec emax false (Zpos m) e loc_Exact)
       (rnd (Zpos m * B e)).
Proof.
  intros He Hmax.
  pose proof (mag_val m e ltac:(lia)) as Hmag.
  assert (Hbias : bias = 2148) by reflexivity.
  pose proof (digits2_bounds m) as [Hd1 Hd2].
  assert (HBe : 0 < B e) by (apply B_pos; lia).
  unfold binary_round_aux.
  set (d := Zpos (digits2_pos m)) in *.
  assert (Hd : 0 < d) by (unfold d; lia).
  destruct (Z_le_gt_dec (fexp prec emax (d + e)) e) as [Hle|Hgt].
  - (* the mantissa is short enough: nothing is shifted out *)
    rewrite (shr_fexp_noshift (Zpos m) e) by exact Hle.
    cbn [shr_m loc_of_shr_record round_nearest_even].
    rewrite (shr_fexp_noshift (Zpos m) e) by exact Hle.
    cbn [shr_m].
    replace (e <=? emax - prec) with true
      by (symmetry; apply Z.leb_le; unfold emax, prec; lia).
    cbn [repr]. split.
    + symmetry. apply rnd_exact; [lia|lia|]. rewrite Hmag. exact Hle.
    + rewrite fexp_eq in Hle. lia.
  - (* [n] low bits are shifted out and rounded *)
    unfold shr_fexp at 1. cbn [Zdigits2 shr_record_of_loc]. fold d.
    set (e1 := fexp prec emax (d + e)) in *.
    assert (He1 : -1074 <= e1) by (unfold e1; rewrite fexp_eq; lia).
    destruct (e1 - e) as [|p|p] eqn:En; try lia.
    cbn [shr].
    assert (Hn : 0 < 2 ^ Zpos p) by (apply Z.pow_pos_nonneg; lia).
    assert (Hinb : inb (Zpos m) (1 * 2 ^ Zpos p)
                     (iter_pos shr_1 p (Build_shr_record (Zpos m) false false))).
    { apply iter_pos_inb; [lia|]. unfold inb. cbn. lia. }
    rewrite Z.mul_1_l in Hinb.
    rewrite (inb_rne _ _ _ Hn Hinb).
    replace (e + Zpos p) with e1 by lia.
    set (k := rne (Zpos m) (2 ^ Zpos p)).
    assert (HBe1 : B e1 = 2 ^ Zpos p * B e).
    { replace e1 with (e + Zpos p) by lia. rewrite B_add by lia. ring. }
    assert (Hrnd : rnd (Zpos m * B e) = k * B e1).
    { unfold rnd. rewrite Hmag. fold e1. rewrite HBe1.
      rewrite rne_scale by lia. reflexivity. }
    rewrite Hrnd.
    assert (Hk0 : 0 <= k) by (apply rne_nonneg; lia).
    assert (Hmono : forall c, Zpos m <= c * 2 ^ Zpos p -> k <= c).
    { intros c Hc. rewrite <- (rne_mult c (2 ^ Zpos p)) by lia.
      apply rne_le; lia. }
    assert (Hmono' : forall c, c * 2 ^ Zpos p <= Zpos m -> c <= k).
    { intros c Hc. rewrite <- (rne_mult c (2 ^ Zpos p)) by lia.
      apply rne_le; lia. }
    destruct (Z_le_gt_dec (-1074) (d + e - 53)) as [Hnorm|Hsub].
    + (* normal range: the rounded mantissa has 53 or 54 bits *)
      assert (Ee1 : e1 = d + e - 53) by (unfold e1; rewrite fexp_eq; lia).
      assert (Ep : Zpos p = d - 53) by lia.
      assert (Hlo : 2 ^ 52 <= k).
      { apply Hmono'. rewrite <- Z.pow_add_r by lia.
        replace (52 + Zpos p) with (d - 1) by lia. exact Hd1. }
      assert (Hhi : k <= 2 ^ 53).
      { apply Hmono. rewrite <- Z.pow_add_r by lia.
        replace (53 + Zpos p) with d by lia. lia. }
      assert (Hde : d + e <= 1024).
      { destruct (Z_le_gt_dec (d + e) 1024) as [|Hbig]; [assumption|exfalso].
        assert (B 1024 <= B (d - 1 + e)) by (apply B_le; lia).
        assert (B (d - 1 + e) <= Zpos m * B e).
        { replace (d - 1 + e) with (e + (d - 1)) by lia.
          rewrite B_add by lia. nia. }
        assert (MAXV < B 1024) by (vm_compute; reflexivity).
        lia. }
      assert (Hcap : k <= (2 ^ 53 - 1) * 2 ^ (971 - e1)).
      { apply Hmono.
        assert (E971 : B 971 = 2 ^ (971 - e1) * B e1).
        { replace 971 with (e1 + (971 - e1)) at 1 by lia.
          rewrite B_add by lia. ring. }
        unfold MAXV in Hmax. rewrite E971, HBe1 in Hmax.
        assert (0 < 2 ^ (971 - e1)) by (apply Z.pow_pos_nonneg; lia).
        nia. }
      destruct (Z.eq_dec k (2 ^ 53)) as [Ek|Nk].
      * (* the rounding carried into a new binade *)
        assert (He971 : e1 < 971).
        { destruct (Z.eq_dec e1 971) as [E|]; [|lia].
          rewrite E, Z.sub_diag, Z.pow_0_r in Hcap. lia. }
        rewrite Ek.
        assert (Es : shr_fexp prec emax (2 ^ 53) e1 loc_Exact
                     = (Build_shr_record (2 ^ 52) false false, e1 + 1)).
        { unfold shr_fexp. rewrite fexp_eq.
          change (Zdigits2 (2 ^ 53)) with 54.
          replace (Z.max (54 + e1 - 53) (-1074) - e1) with 1 by lia.
          reflexivity. }
        rewrite Es. cbn [shr_m].
        change (2 ^ 52) with (Zpos (2 ^ 52)%positive).
        replace (e1 + 1 <=? emax - prec) with true
          by (symmetry; apply Z.leb_le; unfold emax, prec; lia).
        cbn [repr]. split; [|lia].
        rewrite B_add by lia.
        change (Zpos (2 ^ 52)%positive) with (2 ^ 52).
        change (2 ^ 53) with (2 ^ 52 * 2 ^ 1). ring.
      * assert (Hk53 : k < 2 ^ 53) by lia.
        destruct k as [|pk|pk] eqn:Ek; [exfalso|..|lia].
        { assert (0 < 2 ^ 52) by (vm_compute; reflexivity). lia. }
        assert (Hdk : Zpos (digits2_pos pk) = 53).
        { apply digits2_unique. change (53 - 1) with 52. lia. }
        rewrite shr_fexp_noshift
          by (cbn [Zdigits2]; rewrite Hdk, fexp_eq; lia).
        cbn [shr_m].
        replace (e1 <=? emax - prec) with true
          by (symmetry; apply Z.leb_le; unfold emax, prec; lia).
        cbn [repr]. split; [reflexivity|lia].
    + (* subnormal range: the grid is that of the smallest exponent *)
      assert (Ee1 : e1 = -1074) by (unfold e1; rewrite fexp_eq; lia).
      assert (Hhi : k <= 2 ^ 52).
      { apply Hmono. rewrite <- Z.pow_add_r by lia.
        assert (2 ^ d <= 2 ^ (52 + Zpos p)) by (apply Z.pow_le_mono_r; lia).
        lia. }
      destruct k as [|pk|pk] eqn:Ek; [..|lia].
      * rewrite shr_fexp_noshift by (cbn [Zdigits2]; rewrite fexp_eq; lia).
        cbn [shr_m repr]. lia.
      * pose proof (digits2_bounds pk) as [Hk1 _].
        assert (Hdk : Zpos (digits2_pos pk) <= 53).
        { destruct (Z_le_gt_dec (Zpos (digits2_pos pk)) 53); [assumption|].
          exfalso.
          assert (2 ^ 53 <= 2 ^ (Zpos (digits2_pos pk) - 1))
            by (apply Z.pow_le_mono_r; lia).
          assert (2 ^ 52 < 2 ^ 53) by (vm_compute; reflexivity). lia. }
        rewrite shr_fexp_noshift
          by (cbn [Zdigits2]; rewrite fexp_eq; lia).
        cbn [shr_m].
        replace (e1 <=? emax - prec) with true
          by (symmetry; apply Z.leb_le; unfold emax, prec; lia).
        cbn [repr]. split; [reflexivity|lia].
Qed.

(** *** Monotonicity of the rounding *)

Lemma rnd_nonneg x : 0 <= x -> 0 <= rnd x.
Proof.
  intros Hx. unfold rnd.
  assert (Hg : 0 < B (fexp prec emax (mag x))).
  { apply B_pos. rewrite fexp_eq. unfold bias. lia. }
  pose proof (rne_nonneg x _ Hg Hx). nia.
Qed.

Lemma rnd_le x y : 0 <= x <= y -> rnd x <= rnd y.
Proof.
  intros [Hx Hxy].
  destruct (Z.eq_dec x 0) as [->|Hx0].
  { rewrite rnd_0. apply rnd_nonneg. lia. }
  assert (Hbias : bias = 2148) by reflexivity.
  unfold rnd.
  set (fx := fexp prec emax (mag x)). set (fy := fexp prec emax (mag y)).
  assert (Hlog : Z.log2 x <= Z.log2 y) by (apply Z.log2_le_mono; lia).
  assert (Hfx : -1074 <= fx) by (unfold fx; rewrite fexp_eq; lia).
  assert (Hfxy : fx <= fy).
  { unfold fx, fy. rewrite !fexp_eq. unfold mag. lia. }
  assert (Hgx : 0 < B fx) by (apply B_pos; lia).
  assert (Hgy : 0 < B fy) by (apply B_pos; lia).
  destruct (Z.eq_dec fx fy) as [E|NE].
  - rewrite <- E. apply Z.mul_le_mono_nonneg_r; [lia|].
    apply rne_le; lia.
  - (* a power of two of both grids separates [x] from [y] *)
    assert (Ey : fy = Z.log2 y - 52 - bias).
    { unfold fy in *. rewrite fexp_eq in *. unfold mag in *. lia. }
    assert (Hlt : Z.log2 x < Z.log2 y).
    { unfold fx, fy in *. rewrite !fexp_eq in *. unfold mag in *. lia. }
    pose proof (Z.log2_spec x ltac:(lia)) as [_ Hx2].
    pose proof (Z.log2_spec y ltac:(lia)) as [Hy1 _].
    pose proof (Z.log2_nonneg x).
    set (p := 2 ^ Z.log2 y) in *.
    assert (Hxp : x <= p).
    { assert (2 ^ Z.succ (Z.log2 x) <= p)
        by (apply Z.pow_le_mono_r; lia). lia. }
    assert (Epy : p = 2 ^ 52 * B fy).
    { unfold p, B. rewrite <- Z.pow_add_r by lia. f_equal. lia. }
    assert (Epx : p = (2 ^ 52 * 2 ^ (fy - fx)) * B fx).
    { rewrite Epy. replace fy with (fx + (fy - fx)) at 1 by lia.
      rewrite B_add by lia. ring. }
    assert (H1 : rne x (B fx) <= 2 ^ 52 * 2 ^ (fy - fx)).
    { rewrite <- (rne_mult (2 ^ 52 * 2 ^ (fy - fx)) (B fx)) by lia.
      apply rne_le; lia. }
    assert (H2 : 2 ^ 52 <= rne y (B fy)).
    { rewrite <- (rne_mult (2 ^ 52) (B fy)) by lia.
      apply rne_le; lia. }
    apply (Z.mul_le_mono_nonneg_r _ _ (B fx)) in H1; [|lia].
    apply (Z.mul_le_mono_nonneg_r _ _ (B fy)) in H2; [|lia].
    lia.
Qed.

(** *** Canonical floats and their order *)

Ltac fcbn :=
  cbn [V cond_Zopp nonneg_finite valid_binary repr SFcompare SFleb SFltb] in *.

Lemma bounded_spec m e :
  bounded prec emax m e = true ->
  -1074 <= e <= 971 /\ Zpos (digits2_pos m) <= 53 /\
  (e = -1074 \/ Zpos (digits2_pos m) = 53).
Proof.
  unfold bounded, canonical_mantissa. rewrite fexp_eq.
  intros H. apply andb_true_iff in H. destruct H as [H1 H2].
  apply Z.eqb_eq in H1. apply Z.leb_le in H2.
  unfold emax, prec in H2. lia.
Qed.

Lemma valid_repr x :
  is_float x -> nonneg_finite x = true -> repr x (V x).
Proof.
  unfold is_float. destruct x as [s|s| |s m e]; fcbn; try discriminate.
  - reflexivity.
  - destruct s; [discriminate|]. intros H _.
    apply bounded_spec in H. fcbn. lia.
Qed.

Lemma valid_rnd x :
  is_float x -> nonneg_finite x = true -> rnd (V x) = V x.
Proof.
  unfold is_float. destruct x as [s|s| |s m e]; fcbn; try discriminate;
    try reflexivity.
  destruct s; [discriminate|]. intros H _.
  apply bounded_spec in H. fcbn.
  assert (Hbias : bias = 2148) by reflexivity.
  apply rnd_exact; [lia|lia|].
  rewrite mag_val, fexp_eq by lia. lia.
Qed.

Lemma valid_le_MAXV x :
  is_float x -> nonneg_finite x = true -> V x <= MAXV.
Proof.
  assert (H0 : 0 <= MAXV) by (vm_compute; discriminate).
  unfold is_float. destruct x as [s|s| |s m e]; fcbn; try discriminate;
    try (intros; exact H0).
  destruct s; [discriminate|]. intros H _. fcbn.
  apply bounded_spec in H. destruct H as (He & Hd & _).
  assert (Hbias : bias = 2148) by reflexivity.
  pose proof (digits2_bounds m) as [_ Hm].
  assert (Zpos m < 2 ^ 53).
  { assert (2 ^ Zpos (digits2_pos m) <= 2 ^ 53)
      by (apply Z.pow_le_mono_r; lia). lia. }
  assert (B e <= B 971) by (apply B_le; lia).
  assert (0 < B e) by (apply B_pos; lia).
  unfold MAXV. nia.
Qed.

Lemma canonical_lt m1 e1 m2 e2 :
  bounded prec emax m1 e1 = true -> bounded prec emax m2 e2 = true ->
  e1 < e2 -> Zpos m1 * B e1 < Zpos m2 * B e2.
Proof.
  intros H1 H2 He.
  apply bounded_spec in H1. apply bounded_spec in H2.
  destruct H1 as (He1 & Hd1 & _). destruct H2 as (He2 & _ & Hd2).
  assert (Hbias : bias = 2148) by reflexivity.
  assert (Hd2' : Zpos (digits2_pos m2) = 53) by lia.
  pose proof (digits2_bounds m1) as [_ Hm1].
  pose proof (digits2_bounds m2) as [Hm2 _].
  rewrite Hd2' in Hm2. change (53 - 1) with 52 in Hm2.
  assert (Zpos m1 < 2 ^ 53).
  { assert (2 ^ Zpos (digits2_pos m1) <= 2 ^ 53)
      by (apply Z.pow_le_mono_r; lia). lia. }
  assert (HB1 : 0 < B e1) by (apply B_pos; lia).
  assert (HB : B (e1 + 1) <= B e2) by (apply B_le; lia).
  rewrite B_add in HB by lia. change (2 ^ 1) with 2 in HB.
  change (2 ^ 53) with (2 * 2 ^ 52) in *.
  assert (0 < 2 ^ 52) by (vm_compute; reflexivity).
  nia.
Qed.

Lemma fle_V x y :
  is_float x -> is_float y ->
  nonneg_finite x = true -> nonneg_finite y = true ->
  fle x y = true -> V x <= V y.
Proof.
  unfold is_float, fle, SFleb.
  destruct x as [sx|sx| |sx mx ex]; destruct y as [sy|sy| |sy my ey];
    fcbn; try discriminate; try lia.
  - destruct sy; [discriminate|]. intros _ Hy _ _ _. fcbn.
    apply bounded_spec in Hy.
    assert (0 < B ey) by (apply B_pos; unfold bias; lia). nia.
  - destruct sx; [discriminate|]. intros _ _ _ _ H. discriminate.
  - destruct sx; [discriminate|]. destruct sy; [discriminate|].
    intros Hx Hy _ _. fcbn.
    destruct (Z.compare_spec ex ey) as [E|L|G].
    + subst ey. rewrite Pos.compare_cont_spec. fcbn.
      pose proof (bounded_spec _ _ Hx) as (He & _).
      assert (HBx : 0 < B ex) by (apply B_pos; unfold bias; lia).
      destruct (Pos.compare_spec mx my) as [E|L|G]; intros H;
        try discriminate; [subst; lia|].
      apply Pos2Z.pos_lt_pos in L. nia.
    + intros _. pose proof (canonical_lt _ _ _ _ Hx Hy L). lia.
    + discriminate.
Qed.

Lemma fle_nonneg_finite lo y hi :
  nonneg_finite lo = true -> nonneg_finite hi = true ->
  fle lo y = true -> fle y hi = true -> nonneg_finite y = true.
Proof.
  unfold fle, SFleb.
  destruct lo as [s1|s1| |s1 m1 e1]; destruct y as [s|s| |s m e];
    destruct hi as [s2|s2| |s2 m2 e2]; fcbn; try discriminate; try reflexivity;
    try (destruct s1; discriminate); try (destruct s2; discriminate);
    destruct s; try reflexivity; try discriminate;
    try (destruct s1; discriminate).
Qed.

(** *** The operations *)

Lemma iter_xO m d : Zpos (Pos.iter xO m d) = Zpos m * 2 ^ Zpos d.
Proof.
  induction d as [|d IH] using Pos.peano_ind.
  - cbn [Pos.iter]. rewrite Z.pow_1_r. lia.
  - rewrite Pos.iter_succ, (Pos2Z.inj_xO (Pos.iter xO m d)), IH.
    rewrite Pos2Z.inj_succ, Z.pow_succ_r by lia. ring.
Qed.

Lemma shl_align_val m e e' :
  - bias <= e' -> - bias <= e ->
  Zpos (fst (shl_align m e e')) * B (snd (shl_align m e e')) = Zpos m * B e
  /\ Z.min e e' = snd (shl_align m e e').
Proof.
  intros He' He. unfold shl_align.
  destruct (e' - e) as [|d|d] eqn:E; cbn [fst snd]; try (split; lia).
  rewrite iter_xO. split; [|lia].
  replace e with (e' + Zpos d) by lia. rewrite B_add by lia. ring.
Qed.

Lemma binary_round_repr m e :
  -1074 <= e <= 971 -> Zpos m * B e <= MAXV ->
  repr (binary_round prec emax false m e) (rnd (Zpos m * B e)).
Proof.
  intros He Hmax. unfold binary_round.
  assert (Hbias : bias = 2148) by reflexivity.
  set (e' := fexp prec emax (Zpos (digits2_pos m) + e)).
  assert (He' : -1074 <= e') by (unfold e'; rewrite fexp_eq; lia).
  pose proof (shl_align_val m e e' ltac:(lia) ltac:(lia)) as [Hv Hm].
  destruct (shl_align m e e') as [mz ez]. cbn [fst snd] in Hv, Hm.
  rewrite <- Hv. apply binary_round_aux_repr; lia.
Qed.

Lemma binary_normalize_repr z e :
  0 <= z -> -1074 <= e <= 971 -> z * B e <= MAXV ->
  repr (binary_normalize prec emax z e false) (rnd (z * B e)).
Proof.
  intros Hz He Hmax. destruct z as [|p|p]; [| |lia].
  - cbn [binary_normalize repr]. reflexivity.
  - cbn [binary_normalize]. now apply binary_round_repr.
Qed.

Lemma repr_V r v : repr r v -> V r = v /\ 0 <= v /\ nonneg_finite r = true.
Proof.
  destruct r as [s|s| |s m e]; cbn [repr V nonneg_finite]; try tauto.
  - lia.
  - destruct s; [tauto|]. intros [H He]. cbn [cond_Zopp].
    assert (0 < B e) by (apply B_pos; unfold bias; lia). repeat split; nia.
Qed.

Lemma aligned_value m e e' :
  -1074 <= e' <= e ->
  Zpos (fst (shl_align m e e')) * B e' = Zpos m * B e.
Proof.
  intros H. assert (Hbias : bias = 2148) by reflexivity.
  pose proof (shl_align_val m e e' ltac:(lia) ltac:(lia)) as [Hv Hm].
  rewrite <- Hv. f_equal. f_equal. lia.
Qed.

Lemma fsub_repr x y vx vy :
  repr x vx -> repr y vy -> vy <= vx <= MAXV ->
  repr (fsub x y) (vsub vx vy).
Proof.
  intros Hx Hy Hle. unfold vsub, fsub.
  destruct x as [sx|sx| |sx mx ex]; cbn [repr] in Hx; try contradiction;
    destruct y as [sy|sy| |sy my ey]; cbn [repr] in Hy; try contradiction.
  - subst. cbn [SFsub]. destruct sx, sy; reflexivity.
  - destruct sy; [contradiction|]. destruct Hy as [Hy He].
    assert (0 < B ey) by (apply B_pos; unfold bias; lia). exfalso. nia.
  - subst vy. cbn [SFsub]. rewrite Z.eqb_refl. exact Hx.
  - destruct sx; [contradiction|]. destruct sy; [contradiction|].
    destruct Hx as [Hx Hex]. destruct Hy as [Hy Hey].
    assert (HBy : 0 < B ey) by (apply B_pos; unfold bias; lia).
    replace (vy =? 0) with false by (symmetry; apply Z.eqb_neq; nia).
    cbn [SFsub cond_Zopp].
    set (ez := Z.min ex ey).
    pose proof (aligned_value mx ex ez ltac:(lia)) as Ex.
    pose proof (aligned_value my ey ez ltac:(lia)) as Ey.
    set (ax := Zpos (fst (shl_align mx ex ez))) in *.
    set (ay := Zpos (fst (shl_align my ey ez))) in *.
    assert (Ed : (ax - ay) * B ez = vx - vy) by lia.
    assert (HBz : 0 < B ez) by (apply B_pos; unfold bias; lia).
    rewrite <- Ed. apply binary_normalize_repr; [nia|lia|nia].
Qed.

Lemma fadd_repr x y vx vy :
  repr x vx -> repr y vy -> vx + vy <= MAXV ->
  repr (fadd x y) (vadd vx vy).
Proof.
  intros Hx Hy Hle. unfold vadd, fadd.
  destruct x as [sx|sx| |sx mx ex]; cbn [repr] in Hx; try contradiction;
    destruct y as [sy|sy| |sy my ey]; cbn [repr] in Hy; try contradiction.
  - subst. cbn [SFadd]. destruct sx, sy; reflexivity.
  - destruct sy; [contradiction|]. destruct Hy as [Hy He].
    assert (0 < B ey) by (apply B_pos; unfold bias; lia).
    replace (vy =? 0) with false by (symmetry; apply Z.eqb_neq; nia).
    subst vx. cbn [SFadd repr Z.eqb]. split; assumption.
  - subst vy. cbn [SFadd]. rewrite Z.eqb_refl. exact Hx.
  - destruct sx; [contradiction|]. destruct sy; [contradiction|].
    destruct Hx as [Hx Hex]. destruct Hy as [Hy Hey].
    assert (HBx : 0 < B ex) by (apply B_pos; unfold bias; lia).
    assert (HBy : 0 < B ey) by (apply B_pos; unfold bias; lia).
    replace (vy =? 0) with false by (symmetry; apply Z.eqb_neq; nia).
    replace (vx =? 0) with false by (symmetry; apply Z.eqb_neq; nia).
    cbn [SFadd cond_Zopp].
    set (ez := Z.min ex ey).
    pose proof (aligned_value mx ex ez ltac:(lia)) as Ex.
    pose proof (aligned_value my ey ez ltac:(lia)) as Ey.
    set (ax := Zpos (fst (shl_align mx ex ez))) in *.
    set (ay := Zpos (fst (shl_align my ey ez))) in *.
    assert (Ed : (ax + ay) * B ez = vx + vy) by lia.
    rewrite <- Ed. apply binary_normalize_repr; [lia|lia|lia].
Qed.

Lemma exact_product ms es md ed :
  -1074 <= es <= 0 -> -1074 <= ed ->
  Zpos ms * (Zpos md * B ed) / 2 ^ (- es) = Zpos (ms * md) * B (es + ed).
Proof.
  intros Hes Hed. assert (Hbias : bias = 2148) by reflexivity.
  assert (E : B ed = B (es + ed) * 2 ^ (- es)).
  { rewrite <- B_add by lia. f_equal. lia. }
  rewrite E, Pos2Z.inj_mul.
  replace (Zpos ms * (Zpos md * (B (es + ed) * 2 ^ (- es))))
    with (Zpos ms * Zpos md * B (es + ed) * 2 ^ (- es)) by ring.
  apply Z.div_mul. apply Z.pow_nonzero; lia.
Qed.

Lemma fmul_repr ms es d vd :
  -1074 <= es <= 0 -> repr d vd ->
  Zpos ms * vd / 2 ^ (- es) <= MAXV ->
  repr (fmul (S754_finite false ms es) d) (vmul ms es vd).
Proof.
  intros Hes Hd Hmax. unfold vmul, fmul.
  destruct d as [sd|sd| |sd md ed]; cbn [repr] in Hd; try contradiction.
  - subst vd. cbn [SFmul repr]. rewrite Z.mul_0_r. reflexivity.
  - destruct sd; [contradiction|]. destruct Hd as [Hd Hed].
    cbn [SFmul xorb]. subst vd.
    rewrite exact_product in * by lia.
    apply binary_round_aux_repr; [unfold bias; lia|assumption].
Qed.

Lemma round_repr a va : repr a va -> round a = Ok (rne_units va).
Proof.
  unfold rne_units.
  destruct a as [s|s| |s m e]; cbn [repr]; try contradiction.
  - intros ->. reflexivity.
  - destruct s; [contradiction|]. intros [<- He].
    assert (Hbias : bias = 2148) by reflexivity.
    cbn [round cond_Zopp]. f_equal. unfold round_mag.
    destruct e as [|p|p].
    + rewrite Z.pow_0_r, Z.mul_1_r. symmetry. apply rne_mult.
      apply B_pos. lia.
    + replace (B (Zpos p)) with (2 ^ Zpos p * B 0).
      * rewrite Z.mul_assoc. symmetry. apply rne_mult. apply B_pos. lia.
      * change (Zpos p) with (0 + Zpos p) at 2. rewrite B_add by lia. ring.
    + replace (B 0) with (2 ^ Zpos p * B (Zneg p)).
      * symmetry. apply rne_scale; [apply Z.pow_pos_nonneg; lia|].
        apply B_pos. lia.
      * replace 0 with (Zneg p + Zpos p) by lia. rewrite B_add by lia. ring.
Qed.

(** *** Monotonicity of the values *)

Lemma vsub_mono vy v1 v2 :
  vy <= v1 <= v2 -> vsub v1 vy <= vsub v2 vy.
Proof.
  intros H. unfold vsub. destruct (vy =? 0); [lia|]. apply rnd_le. lia.
Qed.

Lemma vsub_nonneg vy v : 0 <= vy <= v -> 0 <= vsub v vy.
Proof.
  intros H. unfold vsub. destruct (vy =? 0); [lia|]. apply rnd_nonneg. lia.
Qed.

Lemma vsub_diag v : vsub v v = 0.
Proof.
  unfold vsub. destruct (Z.eqb_spec v 0) as [->|_]; [reflexivity|].
  rewrite Z.sub_diag. apply rnd_0.
Qed.

Lemma exact_mono ms es v1 v2 :
  0 <= v1 <= v2 ->
  0 <= Zpos ms * v1 / 2 ^ (- es) <= Zpos ms * v2 / 2 ^ (- es).
Proof.
  intros H.
  destruct (Z_lt_le_dec (- es) 0) as [Hneg|Hpos].
  - rewrite Z.pow_neg_r by lia. rewrite !Z.div_0_r. lia.
  - assert (0 < 2 ^ (- es)) by (apply Z.pow_pos_nonneg; lia).
    split.
    + apply Z.div_pos; [nia|lia].
    + apply Z.div_le_mono; [lia|nia].
Qed.

Lemma vmul_mono ms es v1 v2 :
  0 <= v1 <= v2 -> vmul ms es v1 <= vmul ms es v2.
Proof. intros H. unfold vmul. apply rnd_le. now apply exact_mono. Qed.

Lemma vmul_nonneg ms es v : 0 <= v -> 0 <= vmul ms es v.
Proof.
  intros H. unfold vmul. apply rnd_nonneg.
  apply (exact_mono ms es v v). lia.
Qed.

Lemma vmul_0 ms es : vmul ms es 0 = 0.
Proof.
  unfold vmul. rewrite Z.mul_0_r.
  change (0 / 2 ^ (- es)) with 0. apply rnd_0.
Qed.

Lemma vadd_mono vi v1 v2 :
  0 <= vi -> rnd vi = vi -> 0 <= v1 <= v2 -> vadd v1 vi <= vadd v2 vi.
Proof.
  intros Hi Hr H. unfold vadd.
  destruct (Z.eqb_spec vi 0); [lia|].
  destruct (Z.eqb_spec v1 0); destruct (Z.eqb_spec v2 0); try lia.
  - rewrite <- Hr at 1. apply rnd_le. lia.
  - apply rnd_le. lia.
Qed.

Lemma vadd_0_l vi : vadd 0 vi = vi.
Proof. unfold vadd. destruct (Z.eqb_spec vi 0); cbn; lia. Qed.

Lemma rne_units_mono v1 v2 : v1 <= v2 -> rne_units v1 <= rne_units v2.
Proof. intros H. apply rne_le; [reflexivity|assumption]. Qed.

Lemma vindex_mono vlo ms es vi v1 v2 :
  0 <= vlo -> 0 <= vi -> rnd vi = vi -> vlo <= v1 <= v2 ->
  vindex vlo ms es vi v1 <= vindex vlo ms es vi v2.
Proof.
  intros Hlo Hi Hr H. unfold vindex, vaqi.
  apply rne_units_mono, vadd_mono; try assumption.
  split; [apply vmul_nonneg, vsub_nonneg; lia|].
  apply vmul_mono. split; [apply vsub_nonneg; lia|apply vsub_mono; lia].
Qed.

Lemma vindex_lo vlo ms es vi : vindex vlo ms es vi vlo = rne_units vi.
Proof. unfold vindex, vaqi. now rewrite vsub_diag, vmul_0, vadd_0_l. Qed.

(** *** One entry of a table *)

Lemma entry_ok_sound lo hi il ih :
  entry_ok (lo, hi, il, ih) = true ->
  exists di ilo ms es, sound_entry lo hi il ih di ilo ms es.
Proof.
  unfold entry_ok.
  destruct (of_int (ih - il)) as [di|] eqn:Edi; [|discriminate].
  destruct (of_int il) as [ilo|] eqn:Eilo; [|discriminate].
  destruct (truediv di (fsub hi lo)) as [[| | |[|] ms es]|] eqn:Es;
    try discriminate.
  intros H. repeat (apply andb_true_iff in H; destruct H as [H ?]).
  exists di, ilo, ms, es.
  repeat match goal with
         | H : (_ <=? _) = true |- _ => apply Z.leb_le in H
         | H : (_ =? _) = true |- _ => apply Z.eqb_eq in H
         end.
  constructor; unfold is_float, vindex, vaqi; auto.
Qed.

Section Entry.
Variables (lo hi : float) (il ih : Z).
Variables (di ilo : float) (ms : positive) (es : Z).
Hypothesis S : sound_entry lo hi il ih di ilo ms es.

Let bp : breakpoint := (lo, hi, il, ih).

Lemma entry_index_eq v :
  entry_index bp v = vindex (V lo) ms es (V ilo) v.
Proof.
  unfold entry_index, bp.
  now rewrite (se_di _ _ _ _ _ _ _ _ S), (se_ilo _ _ _ _ _ _ _ _ S),
    (se_slope _ _ _ _ _ _ _ _ S).
Qed.

Lemma sound_vlo : 0 <= V lo.
Proof.
  destruct (se_lo _ _ _ _ _ _ _ _ S) as [Hn Hf].
  apply (repr_V _ _ (valid_repr _ Hf Hn)).
Qed.

Lemma sound_vi : 0 <= V ilo.
Proof.
  destruct (se_fi _ _ _ _ _ _ _ _ S) as [Hn Hf].
  apply (repr_V _ _ (valid_repr _ Hf Hn)).
Qed.

Lemma entry_index_mono v1 v2 :
  V lo <= v1 <= v2 -> entry_index bp v1 <= entry_index bp v2.
Proof.
  intros H. rewrite !entry_index_eq.
  apply vindex_mono; [apply sound_vlo|apply sound_vi| |assumption].
  apply (se_rnd _ _ _ _ _ _ _ _ S).
Qed.

Lemma entry_index_bounds v :
  V lo <= v <= V hi -> il <= entry_index bp v <= ih.
Proof.
  intros H. split.
  - transitivity (entry_index bp (V lo)).
    + rewrite entry_index_eq, vindex_lo. apply (se_low _ _ _ _ _ _ _ _ S).
    + apply entry_index_mono. lia.
  - transitivity (entry_index bp (V hi)).
    + apply entry_index_mono. lia.
    + rewrite entry_index_eq. apply (se_high _ _ _ _ _ _ _ _ S).
Qed.

Lemma in_range_value C :
  is_float C -> in_range C bp = true ->
  nonneg_finite C = true /\ V lo <= V C <= V hi.
Proof.
  intros HC Hin. unfold in_range, bp in Hin.
  apply andb_true_iff in Hin. destruct Hin as [H1 H2].
  destruct (se_lo _ _ _ _ _ _ _ _ S) as [Hnl Hfl].
  destruct (se_hi _ _ _ _ _ _ _ _ S) as [Hnh Hfh].
  assert (Hn : nonneg_finite C = true)
    by (apply (fle_nonneg_finite lo C hi); assumption).
  split; [assumption|]. split; apply fle_V; assumption.
Qed.

Lemma entry_aqi C rest :
  is_float C -> in_range C bp = true ->
  aqi_for_concentration C (bp :: rest) = Ok (Some (entry_index bp (V C))).
Proof.
  intros HC Hin.
  destruct (in_range_value C HC Hin) as [Hn [Hlo Hhi]].
  unfold bp in *. cbn [aqi_for_concentration].
  unfold in_range in Hin. rewrite Hin.
  rewrite (se_di _ _ _ _ _ _ _ _ S). cbn [bind].
  rewrite (se_slope _ _ _ _ _ _ _ _ S). cbn [bind].
  rewrite (se_ilo _ _ _ _ _ _ _ _ S). cbn [bind].
  destruct (se_lo _ _ _ _ _ _ _ _ S) as [Hnl Hfl].
  destruct (se_fi _ _ _ _ _ _ _ _ S) as [Hni Hfi].
  destruct (se_le _ _ _ _ _ _ _ _ S) as [_ Hmax].
  pose proof sound_vlo as Hvlo. pose proof sound_vi as Hvi.
  pose proof (se_mul _ _ _ _ _ _ _ _ S) as Hmul.
  pose proof (se_add _ _ _ _ _ _ _ _ S) as Hadd.
  assert (Rd : repr (fsub C lo) (vsub (V C) (V lo))).
  { apply fsub_repr; [now apply valid_repr|now apply valid_repr|lia]. }
  assert (Hd : 0 <= vsub (V C) (V lo) <= vsub (V hi) (V lo)).
  { split; [apply vsub_nonneg; lia|apply vsub_mono; lia]. }
  assert (Rt : repr (fmul (S754_finite false ms es) (fsub C lo))
                    (vmul ms es (vsub (V C) (V lo)))).
  { apply fmul_repr; [apply (se_es _ _ _ _ _ _ _ _ S)|assumption|].
    pose proof (exact_mono ms es _ _ Hd). lia. }
  assert (Ra : repr (fadd (fmul (S754_finite false ms es) (fsub C lo)) ilo)
                    (vaqi (V lo) ms es (V ilo) (V C))).
  { apply fadd_repr; [assumption|now apply valid_repr|].
    pose proof (vmul_mono ms es _ _ Hd). lia. }
  rewrite (round_repr _ _ Ra). cbn [bind].
  rewrite entry_index_eq. reflexivity.
Qed.

End Entry.

(** *** Strict comparison *)

Lemma flt_V x y :
  is_float x -> is_float y ->
  nonneg_finite x = true -> nonneg_finite y = true ->
  flt x y = true -> V x < V y.
Proof.
  unfold is_float, flt, SFltb.
  destruct x as [sx|sx| |sx mx ex]; destruct y as [sy|sy| |sy my ey];
    fcbn; try discriminate.
  - destruct sy; [discriminate|]. intros _ Hy _ _ _. fcbn.
    apply bounded_spec in Hy.
    assert (0 < B ey) by (apply B_pos; unfold bias; lia). nia.
  - destruct sx; [discriminate|]. intros _ _ _ _ H. discriminate.
  - destruct sx; [discriminate|]. destruct sy; [discriminate|].
    intros Hx Hy _ _. fcbn.
    destruct (Z.compare_spec ex ey) as [E|L|G].
    + subst ey. rewrite Pos.compare_cont_spec. cbn [Pos.switch_Eq].
      pose proof (bounded_spec _ _ Hx) as (He & _).
      assert (HBx : 0 < B ex) by (apply B_pos; unfold bias; lia).
      destruct (Pos.compare_spec mx my) as [E|L|G]; intros H;
        try discriminate.
      apply Pos2Z.pos_lt_pos in L. nia.
    + intros _. exact (canonical_lt _ _ _ _ Hx Hy L).
    + discriminate.
Qed.

Lemma flt_nonneg_finite lo y hi :
  nonneg_finite lo = true -> nonneg_finite hi = true ->
  flt lo y = true -> flt y hi = true -> nonneg_finite y = true.
Proof.
  unfold flt, SFltb.
  destruct lo as [s1|s1| |s1 m1 e1]; destruct y as [s|s| |s m e];
    destruct hi as [s2|s2| |s2 m2 e2]; cbn; try discriminate; try reflexivity;
    try (destruct s1; discriminate); try (destruct s2; discriminate);
    destruct s; try reflexivity; try discriminate;
    try (destruct s1; discriminate).
Qed.

Lemma SFcompare_antisym x y :
  SFcompare y x = option_map CompOpp (SFcompare x y).
Proof.
  destruct x as [sx|sx| |sx mx ex]; destruct y as [sy|sy| |sy my ey];
    cbn [SFcompare option_map]; try reflexivity;
    try (destruct sx; reflexivity); try (destruct sy; reflexivity);
    try (destruct sx, sy; reflexivity).
  f_equal. rewrite (Z.compare_antisym ex ey), !Pos.compare_cont_spec.
  rewrite (Pos.compare_antisym mx my).
  destruct sx, sy; try reflexivity;
    destruct (ex ?= ey); cbn [CompOpp]; try reflexivity;
    destruct (mx ?= my)%positive; reflexivity.
Qed.

Lemma flt_not_fle x y : flt x y = true -> fle y x = false.
Proof.
  unfold flt, fle, SFltb, SFleb. rewrite (SFcompare_antisym x y).
  destruct (SFcompare x y) as [[| |]|]; cbn; congruence.
Qed.

(** *** Commutativity of the addition *)

Lemma fadd_comm x y : fadd x y = fadd y x.
Proof.
  unfold fadd.
  destruct x as [sx|sx| |sx mx ex]; destruct y as [sy|sy| |sy my ey];
    cbn [SFadd]; try reflexivity; try (destruct sx, sy; reflexivity).
  rewrite (Z.min_comm ey ex), Z.add_comm. reflexivity.
Qed.

(** *** Whole tables *)

Lemma none_outside C bps :
  forallb (fun bp => negb (in_range C bp)) bps = true ->
  aqi_for_concentration C bps = Ok None.
Proof.
  induction bps as [|[[[lo hi] il] ih] rest IH]; [reflexivity|].
  cbn [forallb aqi_for_concentration in_range]. intros H.
  apply andb_true_iff in H. destruct H as [H1 H2].
  apply negb_true_iff in H1. rewrite H1. now apply IH.
Qed.

Lemma found_entry C bps i :
  forallb entry_ok bps = true -> is_float C ->
  aqi_for_concentration C bps = Ok (Some i) ->
  exists bp, In bp bps /\ in_range C bp = true /\ i = entry_index bp (V C).
Proof.
  intros Hok HC. induction bps as [|[[[lo hi] il] ih] rest IH];
    [discriminate|].
  cbn [forallb] in Hok. apply andb_true_iff in Hok. destruct Hok as [Hbp Hrest].
  destruct (in_range C (lo, hi, il, ih)) eqn:Hin.
  - destruct (entry_ok_sound _ _ _ _ Hbp) as (di & fi & ms & es & S).
    rewrite (entry_aqi _ _ _ _ _ _ _ _ S C rest HC Hin).
    intros [= <-]. exists (lo, hi, il, ih). cbn [In]. auto.
  - cbn [aqi_for_concentration]. unfold in_range in Hin. rewrite Hin.
    intros H. destruct (IH Hrest H) as (bp & Hbp' & Hr & Hi).
    exists bp. cbn [In]. auto.
Qed.

Lemma defined_inside C bps :
  forallb entry_ok bps = true -> is_float C ->
  existsb (in_range C) bps = true ->
  exists i, aqi_for_concentration C bps = Ok (Some i).
Proof.
  intros Hok HC. induction bps as [|[[[lo hi] il] ih] rest IH];
    [discriminate|].
  cbn [forallb] in Hok. apply andb_true_iff in Hok. destruct Hok as [Hbp Hrest].
  cbn [existsb].
  destruct (in_range C (lo, hi, il, ih)) eqn:Hin.
  - destruct (entry_ok_sound _ _ _ _ Hbp) as (di & fi & ms & es & S).
    rewrite (entry_aqi _ _ _ _ _ _ _ _ S C rest HC Hin). eauto.
  - cbn [aqi_for_concentration orb]. unfold in_range in Hin. rewrite Hin.
    now apply IH.
Qed.

(** On a sound table the calculator raises nothing. *)
Lemma table_total C bps :
  forallb entry_ok bps = true -> is_float C ->
  exists r, aqi_for_concentration C bps = Ok r.
Proof.
  intros Hok HC. destruct (existsb (in_range C) bps) eqn:E.
  - destruct (defined_inside C bps Hok HC E) as [i Hi]. eauto.
  - exists None. apply none_outside.
    clear Hok. induction bps as [|bp rest IH]; [reflexivity|].
    cbn [existsb forallb] in *. apply orb_false_iff in E.
    destruct E as [-> E]. now rewrite IH.
Qed.

Lemma entry_range C bp :
  entry_ok bp = true -> is_float C -> in_range C bp = true ->
  nonneg_finite C = true /\ V (bp_lo bp) <= V C <= V (bp_hi bp) /\
  i_lo bp <= entry_index bp (V C) <= i_hi bp.
Proof.
  destruct bp as [[[lo hi] il] ih]. intros Hok HC Hin.
  destruct (entry_ok_sound _ _ _ _ Hok) as (di & fi & ms & es & S).
  destruct (in_range_value _ _ _ _ _ _ _ _ S C HC Hin) as [Hn Hv].
  repeat split; try assumption; try apply Hv;
    apply (entry_index_bounds _ _ _ _ _ _ _ _ S); exact Hv.
Qed.

Lemma table_range lo hi C bps i :
  forallb entry_ok bps = true ->
  forallb (fun bp => (lo <=? i_lo bp) && (i_hi bp <=? hi)) bps = true ->
  is_float C -> aqi_for_concentration C bps = Ok (Some i) -> lo <= i <= hi.
Proof.
  intros Hok Hb HC Hi.
  destruct (found_entry C bps i Hok HC Hi) as (bp & Hbp & Hin & ->).
  rewrite forallb_forall in Hok, Hb.
  specialize (Hok _ Hbp). specialize (Hb _ Hbp).
  apply andb_true_iff in Hb. destruct Hb as [H1 H2].
  apply Z.leb_le in H1. apply Z.leb_le in H2.
  pose proof (entry_range C bp Hok HC Hin). lia.
Qed.

Lemma below_spec a b :
  below a b = true -> V (bp_hi a) < V (bp_lo b) /\ i_hi a <= i_lo b.
Proof.
  destruct a as [[[alo ahi] ail] aih]. destruct b as [[[blo bhi] bil] bih].
  unfold below. cbn. intros H. apply andb_true_iff in H.
  destruct H as [H1 H2]. apply Z.ltb_lt in H1. apply Z.leb_le in H2. lia.
Qed.

Lemma table_mono bps : forall C1 C2 i1 i2,
  table_ok bps = true -> is_float C1 -> is_float C2 -> fle C1 C2 = true ->
  aqi_for_concentration C1 bps = Ok (Some i1) ->
  aqi_for_concentration C2 bps = Ok (Some i2) -> i1 <= i2.
Proof.
  unfold table_ok.
  induction bps as [|bp rest IH]; intros C1 C2 i1 i2 Hok H1 H2 Hle A1 A2;
    [discriminate|].
  apply andb_true_iff in Hok. destruct Hok as [Hall Hasc].
  cbn [forallb ascending] in Hall, Hasc.
  apply andb_true_iff in Hall. destruct Hall as [Hbp Hrest].
  apply andb_true_iff in Hasc. destruct Hasc as [Hbel Hasc].
  rewrite forallb_forall in Hbel.
  assert (Hrest' : forallb entry_ok rest = true) by exact Hrest.
  destruct bp as [[[lo hi] il] ih].
  destruct (entry_ok_sound _ _ _ _ Hbp) as (di & fi & ms & es & S).
  assert (Hskip : forall C, in_range C (lo, hi, il, ih) = false ->
            aqi_for_concentration C (((lo, hi, il, ih) : breakpoint) :: rest)
            = aqi_for_concentration C rest).
  { intros C Hin. cbn [aqi_for_concentration].
    unfold in_range in Hin. now rewrite Hin. }
  destruct (in_range C1 (lo, hi, il, ih)) eqn:Hin1; destruct (in_range C2 (lo, hi, il, ih)) eqn:Hin2.
  - rewrite (entry_aqi _ _ _ _ _ _ _ _ S C1 rest H1 Hin1) in A1.
    rewrite (entry_aqi _ _ _ _ _ _ _ _ S C2 rest H2 Hin2) in A2.
    assert (E1 : i1 = entry_index (lo, hi, il, ih) (V C1)) by congruence.
    assert (E2 : i2 = entry_index (lo, hi, il, ih) (V C2)) by congruence.
    rewrite E1, E2.
    destruct (entry_range C1 _ Hbp H1 Hin1) as (Hn1 & Hv1 & _).
    destruct (entry_range C2 _ Hbp H2 Hin2) as (Hn2 & Hv2 & _).
    apply (entry_index_mono _ _ _ _ _ _ _ _ S).
    cbn [bp_lo fst] in Hv1. split; [lia|]. now apply fle_V.
  - rewrite (entry_aqi _ _ _ _ _ _ _ _ S C1 rest H1 Hin1) in A1.
    assert (E1 : i1 = entry_index (lo, hi, il, ih) (V C1)) by congruence.
    rewrite E1. rewrite (Hskip _ Hin2) in A2.
    destruct (found_entry C2 rest i2 Hrest H2 A2) as (b & Hb & Hinb & ->).
    rewrite forallb_forall in Hrest'.
    destruct (entry_range C1 _ Hbp H1 Hin1) as (_ & _ & Hi1).
    destruct (entry_range C2 b (Hrest' _ Hb) H2 Hinb) as (_ & _ & Hi2).
    destruct (below_spec _ b (Hbel _ Hb)) as [_ Hii]. lia.
  - exfalso. rewrite (Hskip _ Hin1) in A1.
    destruct (found_entry C1 rest i1 Hrest H1 A1) as (b & Hb & Hinb & _).
    rewrite forallb_forall in Hrest'.
    destruct (entry_range C2 _ Hbp H2 Hin2) as (Hn2 & Hv2 & _).
    destruct (entry_range C1 b (Hrest' _ Hb) H1 Hinb) as (Hn1 & Hv1 & _).
    destruct (below_spec _ b (Hbel _ Hb)) as [Hvv _].
    pose proof (fle_V C1 C2 H1 H2 Hn1 Hn2 Hle). lia.
  - rewrite (Hskip _ Hin1) in A1. rewrite (Hskip _ Hin2) in A2.
    apply (IH C1 C2 i1 i2); try assumption.
    apply andb_true_iff. split; assumption.
Qed.

(** *** The conversion of an int is a binary64 number *)

Lemma bounded_intro m e :
  fexp prec emax (Zpos (digits2_pos m) + e) = e -> e <= 971 ->
  bounded prec emax m e = true.
Proof.
  intros Hc He. unfold bounded, canonical_mantissa.
  apply andb_true_iff. split; [now apply Z.eqb_eq|].
  apply Z.leb_le. unfold emax, prec. lia.
Qed.

Lemma finite_or_infinity_valid s m e :
  fexp prec emax (Zpos (digits2_pos m) + e) = e ->
  valid_binary prec emax
    (if e <=? emax - prec then S754_finite s m e else S754_infinity s) = true.
Proof.
  intros Hc. destruct (Z.leb_spec e (emax - prec)) as [H|H]; [|reflexivity].
  cbn [valid_binary]. apply bounded_intro; [assumption|].
  unfold emax, prec in H. lia.
Qed.

Lemma binary_round_aux_valid s m e :
  e <= fexp prec emax (Zpos (digits2_pos m) + e) ->
  valid_binary prec emax (binary_round_aux prec emax s (Zpos m) e loc_Exact)
  = true.
Proof.
  intros Hal.
  pose proof (digits2_bounds m) as [Hd1 Hd2].
  unfold binary_round_aux.
  set (d := Zpos (digits2_pos m)) in *.
  assert (Hd : 0 < d) by (unfold d; lia).
  destruct (Z_le_gt_dec (fexp prec emax (d + e)) e) as [Hle|Hgt].
  - rewrite (shr_fexp_noshift (Zpos m) e) by exact Hle.
    cbn [shr_m loc_of_shr_record round_nearest_even].
    rewrite (shr_fexp_noshift (Zpos m) e) by exact Hle.
    cbn [shr_m]. apply finite_or_infinity_valid. fold d. lia.
  - unfold shr_fexp at 1. cbn [Zdigits2 shr_record_of_loc]. fold d.
    set (e1 := fexp prec emax (d + e)) in *.
    assert (He1 : -1074 <= e1) by (unfold e1; rewrite fexp_eq; lia).
    destruct (e1 - e) as [|p|p] eqn:En; try lia.
    cbn [shr].
    assert (Hn : 0 < 2 ^ Zpos p) by (apply Z.pow_pos_nonneg; lia).
    assert (Hinb : inb (Zpos m) (1 * 2 ^ Zpos p)
                     (iter_pos shr_1 p (Build_shr_record (Zpos m) false false))).
    { apply iter_pos_inb; [lia|]. unfold inb. cbn. lia. }
    rewrite Z.mul_1_l in Hinb.
    rewrite (inb_rne _ _ _ Hn Hinb).
    replace (e + Zpos p) with e1 by lia.
    set (k := rne (Zpos m) (2 ^ Zpos p)).
    assert (Hk0 : 0 <= k) by (apply rne_nonneg; lia).
    assert (Hmono : forall c, Zpos m <= c * 2 ^ Zpos p -> k <= c).
    { intros c Hc. rewrite <- (rne_mult c (2 ^ Zpos p)) by lia.
      apply rne_le; lia. }
    assert (Hmono' : forall c, c * 2 ^ Zpos p <= Zpos m -> c <= k).
    { intros c Hc. rewrite <- (rne_mult c (2 ^ Zpos p)) by lia.
      apply rne_le; lia. }
    destruct (Z_le_gt_dec (-1074) (d + e - 53)) as [Hnorm|Hsub].
    + assert (Ee1 : e1 = d + e - 53) by (unfold e1; rewrite fexp_eq; lia).
      assert (Ep : Zpos p = d - 53) by lia.
      assert (Hlo : 2 ^ 52 <= k).
      { apply Hmono'. rewrite <- Z.pow_add_r by lia.
        replace (52 + Zpos p) with (d - 1) by lia. exact Hd1. }
      assert (Hhi : k <= 2 ^ 53).
      { apply Hmono. rewrite <- Z.pow_add_r by lia.
        replace (53 + Zpos p) with d by lia. lia. }
      destruct (Z.eq_dec k (2 ^ 53)) as [Ek|Nk].
      * rewrite Ek.
        assert (Es : shr_fexp prec emax (2 ^ 53) e1 loc_Exact
                     = (Build_shr_record (2 ^ 52) false false, e1 + 1)).
        { unfold shr_fexp. rewrite fexp_eq.
          change (Zdigits2 (2 ^ 53)) with 54.
          replace (Z.max (54 + e1 - 53) (-1074) - e1) with 1 by lia.
          reflexivity. }
        rewrite Es. cbn [shr_m].
        change (2 ^ 52) with (Zpos (2 ^ 52)%positive).
        apply finite_or_infinity_valid.
        change (Zpos (digits2_pos (2 ^ 52))) with 53.
        rewrite fexp_eq. lia.
      * assert (Hk53 : k < 2 ^ 53) by lia.
        destruct k as [|pk|pk] eqn:Ek; [exfalso|..|lia].
        { assert (0 < 2 ^ 52) by (vm_compute; reflexivity). lia. }
        assert (Hdk : Zpos (digits2_pos pk) = 53).
        { apply digits2_unique. change (53 - 1) with 52. lia. }
        rewrite shr_fexp_noshift
          by (cbn [Zdigits2]; rewrite Hdk, fexp_eq; lia).
        cbn [shr_m]. apply finite_or_infinity_valid.
        rewrite Hdk, fexp_eq. lia.
    + assert (Ee1 : e1 = -1074) by (unfold e1; rewrite fexp_eq; lia).
      assert (Hhi : k <= 2 ^ 52).
      { apply Hmono. rewrite <- Z.pow_add_r by lia.
        assert (2 ^ d <= 2 ^ (52 + Zpos p)) by (apply Z.pow_le_mono_r; lia).
        lia. }
      destruct k as [|pk|pk] eqn:Ek; [..|lia].
      * rewrite shr_fexp_noshift by (cbn [Zdigits2]; rewrite fexp_eq; lia).
        reflexivity.
      * pose proof (digits2_bounds pk) as [Hk1 _].
        assert (Hdk : Zpos (digits2_pos pk) <= 53).
        { destruct (Z_le_gt_dec (Zpos (digits2_pos pk)) 53); [assumption|].
          exfalso.
          assert (2 ^ 53 <= 2 ^ (Zpos (digits2_pos pk) - 1))
            by (apply Z.pow_le_mono_r; lia).
          assert (2 ^ 52 < 2 ^ 53) by (vm_compute; reflexivity). lia. }
        rewrite shr_fexp_noshift
          by (cbn [Zdigits2]; rewrite fexp_eq; lia).
        cbn [shr_m]. apply finite_or_infinity_valid.
        rewrite fexp_eq. lia.
Qed.

Lemma digits2_shift m n :
  Zpos (digits2_pos (Pos.iter xO m n)) = Zpos (digits2_pos m) + Zpos n.
Proof.
  pose proof (digits2_bounds m) as [H1 H2].
  assert (Hn : 0 < 2 ^ Zpos n) by (apply Z.pow_pos_nonneg; lia).
  apply digits2_unique. rewrite iter_xO.
  replace (Zpos (digits2_pos m) + Zpos n - 1)
    with (Zpos (digits2_pos m) - 1 + Zpos n) by lia.
  rewrite !Z.pow_add_r by lia. nia.
Qed.

Lemma binary_round_valid s m e :
  valid_binary prec emax (binary_round prec emax s m e) = true.
Proof.
  unfold binary_round, shl_align.
  set (e' := fexp prec emax (Zpos (digits2_pos m) + e)).
  destruct (e' - e) as [|n|n] eqn:E.
  - apply binary_round_aux_valid. fold e'. lia.
  - apply binary_round_aux_valid. fold e'. lia.
  - apply binary_round_aux_valid. rewrite digits2_shift.
    replace (Zpos (digits2_pos m) + Zpos n + e')
      with (Zpos (digits2_pos m) + e) by lia.
    fold e'. lia.
Qed.

Lemma of_int_valid i x : of_int i = Ok x -> is_float x.
Proof.
  unfold of_int, is_float.
  assert (H : valid_binary prec emax (binary_normalize prec emax i 0 false)
              = true).
  { destruct i as [|p|p]; cbn [binary_normalize];
      [reflexivity|apply binary_round_valid..]. }
  destruct (binary_normalize prec emax i 0 false); try discriminate;
    intros [= <-]; exact H.
Qed.

Lemma readable_to_float v :
  readable v -> exists x, to_float v = Ok x /\ is_float x.
Proof.
  destruct v as [i|x]; cbn [readable to_float]; intros H.
  - exists (Z2F i). split; [exact H|]. exact (of_int_valid _ _ H).
  - eauto.
Qed.

(** *** Gaps *)

Lemma entry_ok_bounds bp :
  entry_ok bp = true ->
  (nonneg_finite (bp_lo bp) = true /\ is_float (bp_lo bp)) /\
  (nonneg_finite (bp_hi bp) = true /\ is_float (bp_hi bp)) /\
  V (bp_lo bp) <= V (bp_hi bp).
Proof.
  destruct bp as [[[lo hi] il] ih]. intros Hok.
  destruct (entry_ok_sound _ _ _ _ Hok) as (di & fi & ms & es & S).
  cbn [bp_lo bp_hi fst snd].
  pose proof (se_le _ _ _ _ _ _ _ _ S).
  repeat split; try apply (se_lo _ _ _ _ _ _ _ _ S);
    try apply (se_hi _ _ _ _ _ _ _ _ S); lia.
Qed.

Lemma outside_value C bp :
  entry_ok bp = true -> is_float C -> nonneg_finite C = true ->
  V (bp_hi bp) < V C \/ V C < V (bp_lo bp) -> in_range C bp = false.
Proof.
  intros Hok HC Hn Hv.
  destruct (entry_ok_bounds bp Hok) as ((Hnl & Hfl) & (Hnh & Hfh) & _).
  destruct bp as [[[lo hi] il] ih]. cbn [bp_lo bp_hi fst snd] in *.
  unfold in_range. apply andb_false_iff.
  destruct Hv as [Hv|Hv].
  - right. destruct (fle C hi) eqn:E; [|reflexivity].
    pose proof (fle_V C hi HC Hfh Hn Hnh E). lia.
  - left. destruct (fle lo C) eqn:E; [|reflexivity].
    pose proof (fle_V lo C Hfl HC Hnl Hn E). lia.
Qed.

Lemma ascending_app l1 x l2 :
  ascending (l1 ++ x :: l2) = true ->
  (forall k, In k l1 -> below k x = true) /\
  (forall k, In k l2 -> below x k = true).
Proof.
  induction l1 as [|a l1 IH]; cbn [app ascending]; intros H;
    apply andb_true_iff in H; destruct H as [H1 H2].
  - rewrite forallb_forall in H1. split; [intros k []|exact H1].
  - rewrite forallb_forall in H1. destruct (IH H2) as [IH1 IH2].
    split; [|exact IH2].
    intros k [<-|Hk]; [|now apply IH1].
    apply H1, in_or_app. right. now left.
Qed.

Lemma in_gap_split C bps :
  in_gap C bps = true ->
  exists l1 a b l2, bps = l1 ++ a :: b :: l2 /\
    flt (bp_hi a) C = true /\ flt C (bp_lo b) = true.
Proof.
  unfold in_gap. induction bps as [|a rest IH]; [discriminate|].
  cbn [gaps]. destruct rest as [|b rest']; [discriminate|].
  cbn [existsb fst snd]. intros H. apply orb_true_iff in H.
  destruct H as [H|H].
  - apply andb_true_iff in H. exists [], a, b, rest'. now cbn.
  - destruct (IH H) as (l1 & a' & b' & l2 & E & H1 & H2).
    exists (a :: l1), a', b', l2. cbn [app]. now rewrite E.
Qed.

Lemma gap_none C bps :
  table_ok bps = true -> is_float C -> in_gap C bps = true ->
  aqi_for_concentration C bps = Ok None.
Proof.
  unfold table_ok. intros Hok HC Hgap.
  apply andb_true_iff in Hok. destruct Hok as [Hall Hasc].
  destruct (in_gap_split C bps Hgap) as (l1 & a & b & l2 & E & Ha & Hb).
  rewrite forallb_forall in Hall.
  assert (Ia : In a bps) by (rewrite E; apply in_or_app; right; now left).
  assert (Ib : In b bps)
    by (rewrite E; apply in_or_app; right; right; now left).
  destruct (entry_ok_bounds a (Hall _ Ia)) as (_ & (Hna & Hfa) & Hla).
  destruct (entry_ok_bounds b (Hall _ Ib)) as ((Hnb & Hfb) & _ & Hlb).
  assert (Hn : nonneg_finite C = true)
    by (apply (flt_nonneg_finite (bp_hi a) C (bp_lo b)); assumption).
  pose proof (flt_V _ _ Hfa HC Hna Hn Ha) as Hva.
  pose proof (flt_V _ _ HC Hfb Hn Hnb Hb) as Hvb.
  assert (Hbefore : forall k, In k l1 -> below k a = true).
  { apply (ascending_app l1 a (b :: l2)). now rewrite <- E. }
  assert (Hafter : forall k, In k l2 -> below b k = true).
  { apply (ascending_app (l1 ++ [a]) b l2).
    rewrite <- app_assoc. cbn [app]. now rewrite <- E. }
  apply none_outside, forallb_forall. intros k Hk.
  apply negb_true_iff, outside_value; try assumption; [now apply Hall|].
  rewrite E in Hk. apply in_app_or in Hk.
  destruct Hk as [Hk|[<-|[<-|Hk]]].
  - left. destruct (below_spec k a (Hbefore k Hk)) as [H _]. lia.
  - left. assumption.
  - right. assumption.
  - right. destruct (below_spec b k (Hafter k Hk)) as [H _]. lia.
Qed.

(** *** The dict of results *)

Lemma set_fresh {A : Type} (d : dict A) k v :
  ~ In k (keys d) -> set d k v = d ++ [(k, v)].
Proof.
  induction d as [|[k' v'] d IH]; cbn [set keys map fst app In];
    [reflexivity|].
  intros H. destruct (String.eqb_spec k k') as [->|_]; [tauto|].
  f_equal. apply IH. unfold keys. tauto.
Qed.

(** Both tables of the source satisfy the invariant. *)
Lemma PM25_table_ok : table_ok PM25_BREAKPOINTS = true.
Proof. vm_compute. reflexivity. Qed.

Lemma PM10_table_ok : table_ok PM10_BREAKPOINTS = true.
Proof. vm_compute. reflexivity. Qed.

Lemma table_ok_entries bps :
  table_ok bps = true -> forallb entry_ok bps = true.
Proof. unfold table_ok. intros H. now apply andb_true_iff in H. Qed.

Lemma aqi_for_pollutant_total k v :
  (supported k = true -> readable v) ->
  exists r, aqi_for_pollutant k v = Ok r.
Proof.
  unfold aqi_for_pollutant, supported. cbv zeta.
  set (a := (String.eqb (lower (strip k)) "pm2.5"
             || String.eqb (lower (strip k)) "pm25")%bool).
  set (b := String.eqb (lower (strip k)) "pm10").
  intros Hv. destruct a; [|destruct b].
  - destruct (readable_to_float v (Hv eq_refl)) as (x & E & Hx).
    rewrite E. cbn [bind].
    exact (table_total x _ (table_ok_entries _ PM25_table_ok) Hx).
  - destruct (readable_to_float v (Hv eq_refl)) as (x & E & Hx).
    rewrite E. cbn [bind].
    exact (table_total x _ (table_ok_entries _ PM10_table_ok) Hx).
  - exists None. reflexivity.
Qed.

Lemma compute_fold concs : forall results,
  NoDup (keys results ++ keys concs) ->
  Forall (fun kv => supported (fst kv) = true -> readable (snd kv)) concs ->
  exists rs,
    fold_left
      (fun acc kv =>
         results <- acc ;;
         r <- aqi_for_pollutant (fst kv) (snd kv) ;;
         Ok (set results (fst kv) r))
      concs (Ok results) = Ok (results ++ rs) /\
    Forall2 (fun kv kr => fst kr = fst kv /\
                          aqi_for_pollutant (fst kv) (snd kv) = Ok (snd kr))
            concs rs.
Proof.
  induction concs as [|[k v] concs IH]; intros results Hnd Hfl.
  - exists []. cbn [fold_left]. rewrite app_nil_r. split; constructor.
  - inversion Hfl as [|? ? Hv Hfl']; subst. cbn [fst snd] in Hv.
    destruct (aqi_for_pollutant_total k v Hv) as [r Hr].
    cbn [fold_left bind fst snd]. rewrite Hr. cbn [bind].
    cbn [keys map fst] in Hnd. fold (keys concs) in Hnd.
    rewrite set_fresh.
    + destruct (IH (results ++ [(k, r)])) as (rs & E & F).
      * unfold keys. rewrite map_app. cbn [map fst].
        rewrite <- app_assoc. exact Hnd.
      * exact Hfl'.
      * exists ((k, r) :: rs). rewrite E, <- app_assoc. split; [reflexivity|].
        constructor; [|exact F]. cbn [fst snd]. auto.
    + apply NoDup_remove_2 in Hnd. intros Hin. apply Hnd.
      apply in_or_app. now left.
Qed.

Lemma fold_max t : forall x,
  In (fold_left Z.max t x) (x :: t) /\
  Forall (fun y => y <= fold_left Z.max t x) (x :: t).
Proof.
  induction t as [|y t IH]; intros x; cbn [fold_left].
  - split; [now left|]. constructor; [lia|constructor].
  - destruct (IH (Z.max x y)) as [Hin Hall].
    inversion Hall as [|? ? Hm Hall']; subst. split.
    + destruct Hin as [E|Hin]; [|right; now right].
      rewrite <- E. destruct (Z.max_spec x y) as [[_ ->]|[_ ->]];
        [right|]; now left.
    + constructor; [lia|]. constructor; [lia|exact Hall'].
Qed.

(** * The claims *)

(** ** The calculator *)

(** C1. For every concentration and every breakpoint table,
    [aqi_for_concentration] does what the specification words: it takes the
    first entry of the table whose range contains the value, bounds
    included, and returns there
    [round(i_lo + (i_hi - i_lo) / (c_hi - c_lo) * (value - c_lo))], an
    integer; when no entry contains the value it returns [None].  The two
    agree on every outcome, the exceptions of a degenerate entry included. *)
Theorem C1_first_range_interpolation (C : float) (table : list breakpoint) :
  aqi_for_concentration C table = index_for_concentration C table.
Proof.
  unfold index_for_concentration.
  induction table as [|[[[lo hi] il] ih] rest IH]; [reflexivity|].
  cbn [aqi_for_concentration find in_range].
  destruct (fle lo C && fle C hi); [|exact IH].
  destruct (of_int (ih - il)) as [di|]; [|reflexivity]. cbn [bind].
  destruct (truediv di (fsub hi lo)) as [slope|]; [|reflexivity]. cbn [bind].
  destruct (of_int il) as [ilo|]; [|reflexivity]. cbn [bind].
  now rewrite fadd_comm.
Qed.

(** C2, as the code has it.  For PM2.5 concentrations that lie in one of the
    ranges of the table (all of them within [0, 500.4]), the index is a
    defined integer of [0, 500], and it is monotone: for [c1 <= c2] both in
    ranges, [index(c1) <= index(c2)]. *)
Theorem C2_pm25_index_range_and_monotone (c1 c2 : float) :
  is_float c1 -> is_float c2 -> fle c1 c2 = true ->
  existsb (in_range c1) PM25_BREAKPOINTS = true ->
  existsb (in_range c2) PM25_BREAKPOINTS = true ->
  exists i1 i2,
    aqi_for_concentration c1 PM25_BREAKPOINTS = Ok (Some i1) /\
    aqi_for_concentration c2 PM25_BREAKPOINTS = Ok (Some i2) /\
    0 <= i1 /\ i1 <= i2 /\ i2 <= 500.
Proof.
  intros H1 H2 Hle R1 R2.
  pose proof PM25_table_ok as Hok.
  pose proof (table_ok_entries _ Hok) as Hall.
  destruct (defined_inside c1 _ Hall H1 R1) as [i1 A1].
  destruct (defined_inside c2 _ Hall H2 R2) as [i2 A2].
  assert (Hb : forallb (fun bp => (0 <=? i_lo bp) && (i_hi bp <=? 500))
                       PM25_BREAKPOINTS = true) by reflexivity.
  pose proof (table_range 0 500 c1 _ i1 Hall Hb H1 A1).
  pose proof (table_range 0 500 c2 _ i2 Hall Hb H2 A2).
  pose proof (table_mono _ c1 c2 i1 i2 Hok H1 H2 Hle A1 A2).
  exists i1, i2. repeat split; try assumption; lia.
Qed.

Lemma C2_witness :
  is_float (lit 350 1) /\ is_float (lit 1000 1) /\
  fle (lit 350 1) (lit 1000 1) = true /\
  exists i1 i2,
    aqi_for_concentration (lit 350 1) PM25_BREAKPOINTS = Ok (Some i1) /\
    aqi_for_concentration (lit 1000 1) PM25_BREAKPOINTS = Ok (Some i2) /\
    0 <= i1 /\ i1 <= i2 /\ i2 <= 500.
Proof.
  split; [vm_compute; reflexivity|].
  split; [vm_compute; reflexivity|].
  split; [vm_compute; reflexivity|].
  apply (C2_pm25_index_range_and_monotone (lit 350 1) (lit 1000 1));
    vm_compute; reflexivity.
Defined.

(** The concentration 12.05 lies in [0, 500.4] and has no index. *)
Lemma C2_counterexample :
  is_float (lit 1205 2) /\
  fle (lit 0 1) (lit 1205 2) = true /\
  fle (lit 1205 2) (lit 5004 1) = true /\
  aqi_for_concentration (lit 1205 2) PM25_BREAKPOINTS = Ok None.
Proof. vm_compute. repeat split. Qed.

(** C3, as the code has it.  The index of the PM2.5 concentration 35.0 is
    99: [aqi_for_concentration(35.0, PM25_BREAKPOINTS) == 99]. *)
Theorem C3_pm25_35_is_99 :
  aqi_for_concentration (lit 350 1) PM25_BREAKPOINTS = Ok (Some 99).
Proof. vm_compute. reflexivity. Qed.

Lemma C3_counterexample :
  aqi_for_concentration (lit 350 1) PM25_BREAKPOINTS <> Ok (Some 80).
Proof. vm_compute. discriminate. Qed.

(** C4, as the code has it.  The index of the PM10 concentration 80 is 63:
    [aqi_for_concentration(80, PM10_BREAKPOINTS) == 63]. *)
Theorem C4_pm10_80_is_63 :
  aqi_for_concentration (Z2F 80) PM10_BREAKPOINTS = Ok (Some 63).
Proof. vm_compute. reflexivity. Qed.

Lemma C4_counterexample :
  aqi_for_concentration (Z2F 80) PM10_BREAKPOINTS <> Ok (Some 72).
Proof. vm_compute. discriminate. Qed.

(** C7. A concentration outside every range of a table, in particular one
    above the upper bound of every entry such as 600 for PM2.5, has the
    result [None], and nothing is raised. *)
Theorem C7_out_of_range_is_none (C : float) (bps : list breakpoint) :
  forallb (fun bp => negb (in_range C bp) || flt (bp_hi bp) C) bps = true ->
  aqi_for_concentration C bps = Ok None.
Proof.
  intros H. apply none_outside.
  rewrite forallb_forall in *. intros bp Hbp. specialize (H bp Hbp).
  apply orb_true_iff in H. destruct H as [H|H]; [assumption|].
  destruct bp as [[[lo hi] il] ih]. cbn [bp_hi fst snd] in H.
  unfold in_range. rewrite (flt_not_fle _ _ H), andb_false_r. reflexivity.
Qed.

Lemma C7_witness :
  forallb (fun bp => flt (bp_hi bp) (Z2F 600)) PM25_BREAKPOINTS = true /\
  aqi_for_concentration (Z2F 600) PM25_BREAKPOINTS = Ok None.
Proof.
  split; [vm_compute; reflexivity|].
  apply (C7_out_of_range_is_none (Z2F 600) PM25_BREAKPOINTS).
  vm_compute. reflexivity.
Defined.

(** C10. The tables have gaps between consecutive ranges, and a
    concentration strictly inside one has no index: for PM10 strictly
    between 54 and 55, 154 and 155, 254 and 255, 354 and 355, 424 and 425,
    504 and 505, and for PM2.5 strictly inside (12.0, 12.1) and the five
    other gaps, [aqi_for_concentration] returns [None]. *)
Theorem C10_gaps_have_no_index (C : float) (bps : list breakpoint) :
  is_float C ->
  bps = PM10_BREAKPOINTS \/ bps = PM25_BREAKPOINTS ->
  in_gap C bps = true ->
  aqi_for_concentration C bps = Ok None /\
  gaps PM10_BREAKPOINTS =
    [ (Z2F 54, Z2F 55); (Z2F 154, Z2F 155); (Z2F 254, Z2F 255);
      (Z2F 354, Z2F 355); (Z2F 424, Z2F 425); (Z2F 504, Z2F 505) ] /\
  gaps PM25_BREAKPOINTS =
    [ (lit 120 1, lit 121 1); (lit 354 1, lit 355 1); (lit 554 1, lit 555 1);
      (lit 1504 1, lit 1505 1); (lit 2504 1, lit 2505 1);
      (lit 3504 1, lit 3505 1) ].
Proof.
  intros HC Hb Hgap. split; [|split; reflexivity].
  apply gap_none; try assumption.
  destruct Hb as [->| ->]; [exact PM10_table_ok|exact PM25_table_ok].
Qed.

Lemma C10_witness :
  is_float (lit 545 1) /\ in_gap (lit 545 1) PM10_BREAKPOINTS = true /\
  aqi_for_concentration (lit 545 1) PM10_BREAKPOINTS = Ok None.
Proof.
  split; [vm_compute; reflexivity|].
  split; [vm_compute; reflexivity|].
  apply (C10_gaps_have_no_index (lit 545 1) PM10_BREAKPOINTS).
  - vm_compute. reflexivity.
  - left. reflexivity.
  - vm_compute. reflexivity.
Defined.

(** ** Categories *)

(** C5. [aqi_category] maps an index to its band by the thresholds 50, 100,
    150, 200 and 300: at most 50 is "Good", 51 to 100 "Moderate", 101 to
    150 "Unhealthy for Sensitive Groups", 151 to 200 "Unhealthy", 201 to
    300 "Very Unhealthy", and above 300 "Hazardous"; so 50 is "Good", 51 is
    "Moderate" and 301 is "Hazardous". *)
Theorem C5_category_bands (aqi : Z) :
  ((aqi <= 50 /\ aqi_category aqi = "Good"%string) \/
   (51 <= aqi <= 100 /\ aqi_category aqi = "Moderate"%string) \/
   (101 <= aqi <= 150 /\
    aqi_category aqi = "Unhealthy for Sensitive Groups"%string) \/
   (151 <= aqi <= 200 /\ aqi_category aqi = "Unhealthy"%string) \/
   (201 <= aqi <= 300 /\ aqi_category aqi = "Very Unhealthy"%string) \/
   (300 < aqi /\ aqi_category aqi = "Hazardous"%string)) /\
  aqi_category 50 = "Good"%string /\
  aqi_category 51 = "Moderate"%string /\
  aqi_category 301 = "Hazardous"%string.
Proof.
  split; [|repeat split]. unfold aqi_category.
  destruct (Z.leb_spec aqi 50); [left; split; [lia|reflexivity]|right].
  destruct (Z.leb_spec aqi 100); [left; split; [lia|reflexivity]|right].
  destruct (Z.leb_spec aqi 150); [left; split; [lia|reflexivity]|right].
  destruct (Z.leb_spec aqi 200); [left; split; [lia|reflexivity]|right].
  destruct (Z.leb_spec aqi 300); [left|right]; (split; [lia|reflexivity]).
Qed.

(** C9. Every negative index is "Good": [aqi_category] is defined on all
    integers and puts everything up to 50 in the lowest band. *)
Theorem C9_negative_is_good (aqi : Z) :
  aqi < 0 -> aqi_category aqi = "Good"%string.
Proof.
  intros H. unfold aqi_category.
  destruct (Z.leb_spec aqi 50); [reflexivity|lia].
Qed.

Lemma C9_witness : -5 < 0 /\ aqi_category (-5) = "Good"%string.
Proof. split; [lia|]. apply (C9_negative_is_good (-5)). lia. Defined.

(** ** Several pollutants *)

(** C6, as the code has it.  [compute_aqi_for_pollutants] is total on the
    mappings whose readings [float(v)] converts, where it is applied: the
    reading of a supported key is a float, or an int within the range of
    the floats.  The result then has exactly the keys of the input, in its
    order; the entry of a key is computed from the converted reading with
    the table its stripped, lower-cased form selects ("pm2.5" or "pm25" the
    PM2.5 table, "pm10" the PM10 table), and is [None] for every other key,
    whose reading is not looked at; nothing is raised. *)
Theorem C6_compute_is_total_on_convertible_readings (concs : dict number) :
  wf_dict concs ->
  Forall (fun kv => supported (fst kv) = true -> readable (snd kv)) concs ->
  exists results,
    compute_aqi_for_pollutants concs = Ok results /\
    keys results = keys concs /\
    Forall2
      (fun kv kr =>
         let key := lower (strip (fst kv)) in
         (key = "pm2.5"%string \/ key = "pm25"%string ->
          exists C, to_float (snd kv) = Ok C /\
                    aqi_for_concentration C PM25_BREAKPOINTS = Ok (snd kr)) /\
         (key = "pm10"%string ->
          exists C, to_float (snd kv) = Ok C /\
                    aqi_for_concentration C PM10_BREAKPOINTS = Ok (snd kr)) /\
         (key <> "pm2.5"%string -> key <> "pm25"%string ->
          key <> "pm10"%string -> snd kr = None))
      concs results.
Proof.
  intros Hwf Hfl.
  destruct (compute_fold concs [] Hwf Hfl) as (rs & E & F).
  exists rs. split; [exact E|]. clear E Hwf. split.
  - clear Hfl. induction F as [|kv kr l l' [H _] _ IH]; [reflexivity|].
    unfold keys in *. cbn [map]. now rewrite H, IH.
  - induction F as [|kv kr l l' [_ H] _ IH]; constructor;
      inversion Hfl as [|? ? Hv Hfl']; subst; auto.
    clear IH Hfl Hfl'. unfold aqi_for_pollutant in H.
    unfold supported in Hv. cbv zeta in *.
    destruct (String.eqb_spec (lower (strip (fst kv))) "pm2.5") as [E1|N1];
      destruct (String.eqb_spec (lower (strip (fst kv))) "pm25") as [E2|N2];
      destruct (String.eqb_spec (lower (strip (fst kv))) "pm10") as [E3|N3];
      cbn [orb] in H, Hv;
      try (rewrite E1 in *; discriminate);
      try (rewrite E2 in *; discriminate);
      try (destruct (readable_to_float _ (Hv eq_refl)) as (x & Ex & _);
           rewrite Ex in H; cbn [bind] in H;
           repeat split; intros; try (exists x; split; assumption);
           exfalso; intuition congruence).
    repeat split; intros; try (exfalso; intuition congruence). congruence.
Qed.

Lemma C6_witness :
  wf_dict sample /\
  Forall (fun kv => supported (fst kv) = true -> readable (snd kv)) sample /\
  exists results,
    compute_aqi_for_pollutants sample = Ok results /\
    keys results = keys sample.
Proof.
  assert (Hwf : wf_dict sample).
  { unfold wf_dict. repeat constructor; cbn; intuition discriminate. }
  assert (Hfl : Forall (fun kv => supported (fst kv) = true ->
                                  readable (snd kv)) sample).
  { repeat constructor; intros _; vm_compute; reflexivity. }
  split; [exact Hwf|]. split; [exact Hfl|].
  destruct (C6_compute_is_total_on_convertible_readings sample Hwf Hfl)
    as (results & E & K & _).
  exists results. split; assumption.
Defined.

(** The reading of a supported key may be an int that [float(v)] cannot
    convert: the call raises [OverflowError]. *)
Lemma C6_counterexample :
  compute_aqi_for_pollutants [("pm10"%string, Int (10 ^ 400))]
  = Raise OverflowError.
Proof. vm_compute. reflexivity. Qed.

(** C8, as the code has it.  The overall index of the results is the
    maximum of the defined indices and is undefined when none is; for the
    readings {"PM2.5": 35.0, "PM10": 80, "CO": 0.7} the indices are 99, 63
    and [None], and the overall index is [max(99, 63) = 99], the
    unsupported "CO" being left out. *)
Theorem C8_overall_is_the_maximum (aqi_results : dict (option Z)) :
  match overall aqi_results with
  | Some m =>
      In (Some m) (values aqi_results) /\
      Forall (fun v => match v with Some i => i <= m | None => True end)
             (values aqi_results)
  | None => Forall (fun v => v = None) (values aqi_results)
  end /\
  compute_aqi_for_pollutants sample
  = Ok [ ("PM2.5"%string, Some 99); ("PM10"%string, Some 63);
         ("CO"%string, None) ] /\
  overall [ ("PM2.5"%string, Some 99); ("PM10"%string, Some 63);
            ("CO"%string, None) ] = Some (Z.max 99 63) /\
  Z.max 99 63 = 99.
Proof.
  split; [|repeat split].
  unfold overall, valid_aqis.
  assert (Hin : forall i l, In i (flat_map
              (fun v : option Z => match v with Some i => [i] | None => [] end) l)
            <-> In (Some i) l).
  { intros i l. rewrite in_flat_map. split.
    - intros ([j|] & Hj & Hi); cbn in Hi; [|tauto].
      destruct Hi as [->|[]]. assumption.
    - intros H. exists (Some i). split; [assumption|now left]. }
  destruct (flat_map _ (values aqi_results)) as [|x t] eqn:E.
  - apply Forall_forall. intros [i|] Hv; [|reflexivity].
    apply Hin in Hv. rewrite E in Hv. destruct Hv.
  - cbn [Py.max]. destruct (fold_max t x) as [Hm Hall]. split.
    + apply Hin. rewrite E. exact Hm.
    + apply Forall_forall. intros [i|] Hv; [|exact I].
      apply Hin in Hv. rewrite E in Hv.
      rewrite Forall_forall in Hall. now apply Hall.
Qed.

Lemma C8_counterexample :
  (r <- compute_aqi_for_pollutants sample ;; Ok (overall r)) <> Ok (Some 80).
Proof. vm_compute. discriminate. Qed.

(** * Further properties of the code *)

(** ** The calculator on the two tables of the source *)

Lemma outside_none C bps :
  existsb (in_range C) bps = false -> aqi_for_concentration C bps = Ok None.
Proof.
  intros E. apply none_outside.
  induction bps as [|bp rest IH]; [reflexivity|].
  cbn [existsb forallb] in *. apply orb_false_iff in E.
  destruct E as [-> E]. now rewrite IH.
Qed.

Lemma source_table_dichotomy C bps :
  table_ok bps = true ->
  forallb (fun bp => (0 <=? i_lo bp) && (i_hi bp <=? 500)) bps = true ->
  is_float C ->
  if existsb (in_range C) bps
  then exists i, aqi_for_concentration C bps = Ok (Some i) /\ 0 <= i <= 500
  else aqi_for_concentration C bps = Ok None.
Proof.
  intros Hok Hb HC. pose proof (table_ok_entries _ Hok) as Hall.
  destruct (existsb (in_range C) bps) eqn:E.
  - destruct (defined_inside C bps Hall HC E) as [i Hi].
    exists i. split; [assumption|].
    exact (table_range 0 500 C bps i Hall Hb HC Hi).
  - now apply outside_none.
Qed.

(** X1. On both tables of the source the calculator never raises: a float
    in one of the ranges has an index, an integer of [0, 500], and every
    other float has [None]. *)
Theorem X1_source_tables_defined_or_none (C : float) :
  is_float C ->
  (if existsb (in_range C) PM25_BREAKPOINTS
   then exists i,
       aqi_for_concentration C PM25_BREAKPOINTS = Ok (Some i) /\ 0 <= i <= 500
   else aqi_for_concentration C PM25_BREAKPOINTS = Ok None) /\
  (if existsb (in_range C) PM10_BREAKPOINTS
   then exists i,
       aqi_for_concentration C PM10_BREAKPOINTS = Ok (Some i) /\ 0 <= i <= 500
   else aqi_for_concentration C PM10_BREAKPOINTS = Ok None).
Proof.
  intros HC. split.
  - apply source_table_dichotomy;
      [exact PM25_table_ok|reflexivity|assumption].
  - apply source_table_dichotomy;
      [exact PM10_table_ok|reflexivity|assumption].
Qed.

Lemma X1_witness :
  is_float (lit 1205 2) /\
  aqi_for_concentration (lit 1205 2) PM25_BREAKPOINTS = Ok None /\
  exists i,
    aqi_for_concentration (lit 1205 2) PM10_BREAKPOINTS = Ok (Some i) /\
    0 <= i <= 500.
Proof.
  assert (H : is_float (lit 1205 2)) by (vm_compute; reflexivity).
  split; [exact H|].
  destruct (X1_source_tables_defined_or_none (lit 1205 2) H) as [H25 H10].
  split; [exact H25|exact H10].
Defined.

(** X2. The PM10 index is monotone: for floats [c1 <= c2] that both lie in
    ranges of the PM10 table, [index(c1) <= index(c2)]. *)
Theorem X2_pm10_index_monotone (c1 c2 : float) (i1 i2 : Z) :
  is_float c1 -> is_float c2 -> fle c1 c2 = true ->
  aqi_for_concentration c1 PM10_BREAKPOINTS = Ok (Some i1) ->
  aqi_for_concentration c2 PM10_BREAKPOINTS = Ok (Some i2) ->
  i1 <= i2.
Proof. intros. eapply (table_mono _ c1 c2); eauto. exact PM10_table_ok. Qed.

Lemma X2_witness :
  is_float (Z2F 80) /\ is_float (Z2F 200) /\ fle (Z2F 80) (Z2F 200) = true /\
  aqi_for_concentration (Z2F 80) PM10_BREAKPOINTS = Ok (Some 63) /\
  aqi_for_concentration (Z2F 200) PM10_BREAKPOINTS = Ok (Some 123) /\
  63 <= 123.
Proof.
  assert (H1 : is_float (Z2F 80)) by (vm_compute; reflexivity).
  assert (H2 : is_float (Z2F 200)) by (vm_compute; reflexivity).
  assert (H3 : fle (Z2F 80) (Z2F 200) = true) by (vm_compute; reflexivity).
  assert (A1 : aqi_for_concentration (Z2F 80) PM10_BREAKPOINTS = Ok (Some 63))
    by (vm_compute; reflexivity).
  assert (A2 : aqi_for_concentration (Z2F 200) PM10_BREAKPOINTS = Ok (Some 123))
    by (vm_compute; reflexivity).
  repeat (split; [assumption|]).
  exact (X2_pm10_index_monotone _ _ _ _ H1 H2 H3 A1 A2).
Defined.

(** *** Values that are no concentration *)

Lemma below_zero_not_in_range C bp :
  nonneg_finite (bp_lo bp) = true -> flt C (S754_zero false) = true ->
  in_range C bp = false.
Proof.
  destruct bp as [[[lo hi] il] ih]. cbn [bp_lo fst snd]. intros Hlo HC.
  unfold in_range. replace (fle lo C) with false; [reflexivity|].
  unfold flt, fle, SFltb, SFleb in *.
  destruct lo as [s1|s1| |s1 m1 e1]; try discriminate;
    destruct C as [s|s| |s m e]; try discriminate;
    cbn in *; try reflexivity;
    destruct s; try discriminate; try reflexivity;
    destruct s1; try discriminate; reflexivity.
Qed.

Lemma not_finite_not_in_range C bp :
  nonneg_finite (bp_lo bp) = true -> nonneg_finite (bp_hi bp) = true ->
  finite C = false -> in_range C bp = false.
Proof.
  destruct bp as [[[lo hi] il] ih]. cbn [bp_lo bp_hi fst snd].
  intros Hlo Hhi HC. unfold in_range, fle, SFleb.
  destruct C as [s|s| |s m e]; try discriminate.
  - destruct s.
    + destruct lo as [s1|s1| |s1 m1 e1]; try discriminate; reflexivity.
    + destruct hi as [s1|s1| |s1 m1 e1]; try discriminate;
        cbn; apply andb_false_r.
  - destruct lo; reflexivity.
Qed.

(** X3. A NaN, an infinity and every negative number have no index, on any
    table whose bounds are non-negative numbers, as those of the source
    are; nothing is raised for them. *)
Theorem X3_nan_infinite_negative_are_none (C : float) (bps : list breakpoint) :
  forallb (fun bp => nonneg_finite (bp_lo bp) && nonneg_finite (bp_hi bp)) bps
  = true ->
  finite C = false \/ flt C (S754_zero false) = true ->
  aqi_for_concentration C bps = Ok None.
Proof.
  intros Hb HC. apply none_outside, forallb_forall. intros bp Hbp.
  rewrite forallb_forall in Hb. specialize (Hb bp Hbp).
  apply andb_true_iff in Hb. destruct Hb as [Hlo Hhi].
  apply negb_true_iff. destruct HC as [HC|HC].
  - now apply not_finite_not_in_range.
  - now apply below_zero_not_in_range.
Qed.

Lemma X3_witness :
  aqi_for_concentration S754_nan PM25_BREAKPOINTS = Ok None /\
  aqi_for_concentration (S754_infinity false) PM10_BREAKPOINTS = Ok None /\
  aqi_for_concentration (lit (-5) 1) PM25_BREAKPOINTS = Ok None.
Proof.
  split; [|split].
  - apply (X3_nan_infinite_negative_are_none S754_nan PM25_BREAKPOINTS);
      [vm_compute; reflexivity|left; reflexivity].
  - apply (X3_nan_infinite_negative_are_none (S754_infinity false)
             PM10_BREAKPOINTS);
      [vm_compute; reflexivity|left; reflexivity].
  - apply (X3_nan_infinite_negative_are_none (lit (-5) 1) PM25_BREAKPOINTS);
      [vm_compute; reflexivity|right; vm_compute; reflexivity].
Defined.

(** *** A degenerate entry *)

Lemma fle_refl x : finite x = true -> fle x x = true.
Proof.
  unfold fle, SFleb. destruct x as [s|s| |s m e]; try discriminate; intros _.
  - reflexivity.
  - cbn [SFcompare]. rewrite Z.compare_refl, Pos.compare_cont_refl.
    destruct s; reflexivity.
Qed.

Lemma fsub_diag x :
  finite x = true -> exists s, fsub x x = S754_zero s.
Proof.
  unfold fsub. destruct x as [s|s| |s m e]; try discriminate; intros _.
  - cbn [SFsub]. destruct s; eauto.
  - cbn [SFsub]. rewrite Z.sub_diag. cbn [binary_normalize]. eauto.
Qed.

(** X4. An entry whose two bounds are the same number makes the calculator
    raise [ZeroDivisionError] at that concentration: the range contains the
    value and its width, the divisor of the slope, is zero. *)
Theorem X4_degenerate_entry_raises
        (x : float) (il ih : Z) (di : float) (rest : list breakpoint) :
  finite x = true -> of_int (ih - il) = Ok di ->
  aqi_for_concentration x ((x, x, il, ih) :: rest) = Raise ZeroDivisionError.
Proof.
  intros Hx Hdi. cbn [aqi_for_concentration].
  rewrite (fle_refl x Hx). cbn [andb]. rewrite Hdi. cbn [bind].
  destruct (fsub_diag x Hx) as [s ->]. reflexivity.
Qed.

Lemma X4_witness :
  aqi_for_concentration (Z2F 5) [(Z2F 5, Z2F 5, 0, 50)]
  = Raise ZeroDivisionError.
Proof.
  apply (X4_degenerate_entry_raises (Z2F 5) 0 50 (Z2F 50) []);
    vm_compute; reflexivity.
Defined.

(** *** The ends of the ranges *)

(** X5. On both tables the interpolation meets the published indices at
    the two ends of every range, rounding included: the index of [bp_lo] is
    [i_lo] and the index of [bp_hi] is [i_hi]. *)
Theorem X5_range_ends_map_to_index_ends :
  Forall (fun bp =>
            aqi_for_concentration (bp_lo bp) PM25_BREAKPOINTS
            = Ok (Some (i_lo bp)) /\
            aqi_for_concentration (bp_hi bp) PM25_BREAKPOINTS
            = Ok (Some (i_hi bp)))
         PM25_BREAKPOINTS /\
  Forall (fun bp =>
            aqi_for_concentration (bp_lo bp) PM10_BREAKPOINTS
            = Ok (Some (i_lo bp)) /\
            aqi_for_concentration (bp_hi bp) PM10_BREAKPOINTS
            = Ok (Some (i_hi bp)))
         PM10_BREAKPOINTS.
Proof. split; repeat constructor; vm_compute; reflexivity. Qed.

(** *** Index and category *)

Lemma band_of_range bp i :
  In bp PM25_BREAKPOINTS \/ In bp PM10_BREAKPOINTS ->
  i_lo bp <= i <= i_hi bp ->
  aqi_category i = aqi_category (i_lo bp) /\
  aqi_category i = aqi_category (i_hi bp).
Proof.
  intros Hin Hi.
  assert (Hc : In (i_lo bp, i_hi bp)
                  [(0, 50); (51, 100); (101, 150); (151, 200); (201, 300);
                   (301, 400); (401, 500)]).
  { destruct Hin as [Hin|Hin]; cbn in Hin;
      repeat (destruct Hin as [<-|Hin]; [cbn; tauto|]); destruct Hin. }
  cbn [In] in Hc.
  repeat (destruct Hc as [Hc|Hc];
          [injection Hc as E1 E2; rewrite <- E1, <- E2 in *;
           unfold aqi_category;
           repeat match goal with
                  | |- context [?a <=? ?b] => destruct (Z.leb_spec a b); try lia
                  end; split; reflexivity|]).
  destruct Hc.
Qed.

(** X6. A range of the tables never straddles two categories: the category
    of the index of a concentration is that of the two index ends of the
    range the concentration lies in. *)
Theorem X6_category_constant_on_a_range
        (C : float) (bps : list breakpoint) (i : Z) :
  is_float C ->
  bps = PM25_BREAKPOINTS \/ bps = PM10_BREAKPOINTS ->
  aqi_for_concentration C bps = Ok (Some i) ->
  exists bp,
    In bp bps /\ in_range C bp = true /\
    aqi_category i = aqi_category (i_lo bp) /\
    aqi_category i = aqi_category (i_hi bp).
Proof.
  intros HC Hb Hi.
  assert (Hok : table_ok bps = true)
    by (destruct Hb as [->| ->]; [exact PM25_table_ok|exact PM10_table_ok]).
  pose proof (table_ok_entries _ Hok) as Hall.
  destruct (found_entry C bps i Hall HC Hi) as (bp & Hbp & Hin & ->).
  exists bp. split; [assumption|]. split; [assumption|].
  rewrite forallb_forall in Hall.
  destruct (entry_range C bp (Hall _ Hbp) HC Hin) as (_ & _ & Hr).
  apply band_of_range; [|assumption].
  destruct Hb as [->| ->]; auto.
Qed.

Lemma X6_witness :
  exists bp,
    In bp PM25_BREAKPOINTS /\ in_range (lit 350 1) bp = true /\
    aqi_category 99 = aqi_category (i_lo bp) /\
    aqi_category 99 = aqi_category (i_hi bp).
Proof.
  apply (X6_category_constant_on_a_range (lit 350 1) PM25_BREAKPOINTS 99).
  - vm_compute. reflexivity.
  - left. reflexivity.
  - vm_compute. reflexivity.
Defined.

(** ** compute_aqi_for_pollutants *)

Lemma readable_all (concs : dict number) :
  Forall readable (values concs) ->
  Forall (fun kv => supported (fst kv) = true -> readable (snd kv)) concs.
Proof.
  unfold values. intros H. apply Forall_forall. intros kv Hin _.
  rewrite Forall_forall in H. apply H. now apply in_map.
Qed.

Lemma compute_entries concs :
  wf_dict concs -> Forall readable (values concs) ->
  exists results,
    compute_aqi_for_pollutants concs = Ok results /\
    Forall2 (fun kv kr => fst kr = fst kv /\
                          aqi_for_pollutant (fst kv) (snd kv) = Ok (snd kr))
            concs results.
Proof.
  intros Hwf Hfl.
  destruct (compute_fold concs [] Hwf (readable_all _ Hfl)) as (rs & E & F).
  eauto.
Qed.

Lemma get_parallel concs results k :
  Forall2 (fun (kv : string * number) (kr : string * option Z) =>
             fst kr = fst kv /\
             aqi_for_pollutant (fst kv) (snd kv) = Ok (snd kr))
          concs results ->
  match get concs k with
  | Some v => exists r, aqi_for_pollutant k v = Ok r /\ get results k = Some r
  | None => get results k = None
  end.
Proof.
  induction 1 as [|[k1 v] [k2 r] l l' [Hk Hr] _ IH]; [reflexivity|].
  cbn [fst snd] in Hk, Hr. subst k2. cbn [get].
  destruct (String.eqb_spec k k1) as [->|_]; [eauto|exact IH].
Qed.

(** X7. Looking a pollutant up in the results finds what was computed for
    it: for a key of the readings, [results.get(k)] is the index computed
    from its own concentration with the table its name selects, and for
    any other key it is [None]. *)
Theorem X7_results_lookup (concs : dict number) (k : string) :
  wf_dict concs -> Forall readable (values concs) ->
  exists results,
    compute_aqi_for_pollutants concs = Ok results /\
    match get concs k with
    | Some v =>
        exists r, aqi_for_pollutant k v = Ok r /\ get results k = Some r
    | None => get results k = None
    end.
Proof.
  intros Hwf Hfl.
  destruct (compute_entries concs Hwf Hfl) as (results & E & F).
  exists results. split; [exact E|]. now apply get_parallel.
Qed.

Lemma sample_wf : wf_dict sample.
Proof. unfold wf_dict. repeat constructor; cbn; intuition discriminate. Qed.

Lemma sample_readable : Forall readable (values sample).
Proof. repeat constructor; vm_compute; reflexivity. Qed.

Lemma X7_witness :
  exists results,
    compute_aqi_for_pollutants sample = Ok results /\
    exists r, aqi_for_pollutant "PM10" (Int 80) = Ok r /\
              get results "PM10" = Some r.
Proof.
  destruct (X7_results_lookup sample "PM10" sample_wf sample_readable)
    as (results & E & H).
  exists results. split; [exact E|exact H].
Defined.

(** *** The normal form of a key *)

Lemma is_space_lower c : is_space (lower_char c) = is_space c.
Proof. destruct c as [[] [] [] [] [] [] [] []]; reflexivity. Qed.

Lemma lower_char_idem c : lower_char (lower_char c) = lower_char c.
Proof. destruct c as [[] [] [] [] [] [] [] []]; reflexivity. Qed.

Lemma lower_idem s : lower (lower s) = lower s.
Proof.
  induction s as [|c s IH]; [reflexivity|].
  cbn [lower]. now rewrite lower_char_idem, IH.
Qed.

Lemma lstrip_lower s : lstrip (lower s) = lower (lstrip s).
Proof.
  induction s as [|c s IH]; [reflexivity|].
  cbn [lower lstrip]. rewrite is_space_lower.
  destruct (is_space c); [exact IH|reflexivity].
Qed.

Lemma rstrip_lower s : rstrip (lower s) = lower (rstrip s).
Proof.
  induction s as [|c s IH]; [reflexivity|].
  cbn [lower rstrip]. rewrite IH, is_space_lower.
  destruct (rstrip s); cbn [lower]; [destruct (is_space c)|]; reflexivity.
Qed.

Lemma strip_lower s : strip (lower s) = lower (strip s).
Proof. unfold strip. now rewrite lstrip_lower, rstrip_lower. Qed.

Lemma rstrip_cons c s :
  rstrip (String c s) =
  match rstrip s with
  | EmptyString => if is_space c then EmptyString else String c EmptyString
  | t => String c t
  end.
Proof. reflexivity. Qed.

Lemma rstrip_idem s : rstrip (rstrip s) = rstrip s.
Proof.
  induction s as [|c s IH]; [reflexivity|].
  rewrite rstrip_cons. destruct (rstrip s) as [|c' t] eqn:E.
  - destruct (is_space c) eqn:Ec; [reflexivity|].
    rewrite rstrip_cons. cbn [rstrip]. now rewrite Ec.
  - rewrite rstrip_cons, IH. reflexivity.
Qed.

Lemma lstrip_head s :
  match lstrip s with
  | EmptyString => True
  | String c _ => is_space c = false
  end.
Proof.
  induction s as [|c s IH]; [exact I|].
  cbn [lstrip]. destruct (is_space c) eqn:E; [exact IH|exact E].
Qed.

Lemma rstrip_head c s :
  is_space c = false ->
  exists t, rstrip (String c s) = String c t.
Proof.
  intros Hc. rewrite rstrip_cons.
  destruct (rstrip s); [rewrite Hc|]; eauto.
Qed.

Lemma strip_idem s : strip (strip s) = strip s.
Proof.
  unfold strip. pose proof (lstrip_head s) as H.
  destruct (lstrip s) as [|c t]; [reflexivity|].
  destruct (rstrip_head c t H) as [t' E]. rewrite E.
  cbn [lstrip]. rewrite H, <- E. apply rstrip_idem.
Qed.

(** X8. The name of a pollutant counts only through its stripped,
    lower-cased form, and that form is a fixed point: a reading gets the
    same index under its key and under the normal form of its key. *)
Theorem X8_key_normal_form (k : string) (v : number) :
  lower (strip (lower (strip k))) = lower (strip k) /\
  aqi_for_pollutant (lower (strip k)) v = aqi_for_pollutant k v.
Proof.
  assert (E : lower (strip (lower (strip k))) = lower (strip k))
    by now rewrite strip_lower, strip_idem, lower_idem.
  split; [exact E|]. unfold aqi_for_pollutant. now rewrite E.
Qed.

(** ** The meter *)

Lemma clamp_range r : 0 <= clamp r <= 500.
Proof. unfold clamp. lia. Qed.

Lemma clamp_id r : 0 <= r <= 500 -> clamp r = r.
Proof. unfold clamp. lia. Qed.

Lemma category_in_range aqi :
  0 <= aqi <= 500 ->
  (fst (aqi_to_category aqi) = aqi_category aqi /\ ~ 101 <= aqi <= 150) \/
  (fst (aqi_to_category aqi) = "Unhealthy for Sensitive"%string /\
   aqi_category aqi = "Unhealthy for Sensitive Groups"%string /\
   101 <= aqi <= 150).
Proof.
  intros H. unfold aqi_to_category, aqi_category, CATEGORIES, first_category.
  repeat match goal with
         | |- context [?a <=? ?b] => destruct (Z.leb_spec a b); try lia
         end; cbn [andb fst];
    try (left; split; [reflexivity|lia]); right; repeat split; lia.
Qed.

(** X9. The meter never shows "Out of range": whatever the reading,
    [update_meter] clamps it into [0, 500], and the category it names is
    that of [aqi_category], except that the band 101 to 150 is labelled
    "Unhealthy for Sensitive" where [aqi_category] says "Unhealthy for
    Sensitive Groups". *)
Theorem X9_meter_category (reading : Z) :
  let '(aqi, (name, color), x) := update_meter reading in
  0 <= aqi <= 500 /\
  name <> "Out of range"%string /\
  ((name = aqi_category aqi /\ ~ 101 <= aqi <= 150) \/
   (name = "Unhealthy for Sensitive"%string /\
    aqi_category aqi = "Unhealthy for Sensitive Groups"%string /\
    101 <= aqi <= 150)).
Proof.
  unfold update_meter.
  pose proof (clamp_range reading) as Hr.
  pose proof (category_in_range (clamp reading) Hr) as Hc.
  destruct (aqi_to_category (clamp reading)) as [name color].
  cbn [fst] in Hc. split; [exact Hr|]. split; [|exact Hc].
  destruct Hc as [[-> _]|[-> _]]; [|discriminate].
  unfold aqi_category.
  repeat match goal with
         | |- context [?a <=? ?b] => destruct (a <=? b)
         end; discriminate.
Qed.

(** X10. Outside [0, 500] [aqi_to_category] itself answers "Out of range"
    with the grey colour, and inside it never does: the ranges of
    CATEGORIES cover exactly the integers of [0, 500]. *)
Theorem X10_categories_cover (aqi : Z) :
  aqi_to_category aqi = ("Out of range"%string, "#666"%string)
  <-> ~ 0 <= aqi <= 500.
Proof.
  unfold aqi_to_category, CATEGORIES, first_category. split.
  - repeat match goal with
           | |- context [?a <=? ?b] => destruct (Z.leb_spec a b); try lia
           end; cbn [andb]; discriminate.
  - intros H.
    repeat match goal with
           | |- context [?a <=? ?b] => destruct (Z.leb_spec a b); try lia
           end; reflexivity.
Qed.

(** *** The pointer *)

Lemma pointer_table :
  let xs := map (fun n => pointer_x (Z.of_nat n)) (seq 0 501) in
  forallb (fun x => fle (Z2F 0) x && fle x (Z2F canvas_width)) xs
  && forallb (fun i => forallb (fun j => (j <? i)%nat
                                         || fle (nth i xs S754_nan)
                                                (nth j xs S754_nan))
                               (seq 0 501))
             (seq 0 501) = true.
Proof. vm_compute. reflexivity. Qed.

Lemma pointer_nth n :
  (n < 501)%nat ->
  nth n (map (fun n => pointer_x (Z.of_nat n)) (seq 0 501)) S754_nan
  = pointer_x (Z.of_nat n).
Proof.
  intros H.
  rewrite (nth_indep _ S754_nan (pointer_x (Z.of_nat 0)))
    by (rewrite length_map, length_seq; exact H).
  rewrite (map_nth (fun n => pointer_x (Z.of_nat n))), seq_nth by exact H.
  reflexivity.
Qed.

Lemma pointer_bounds a b :
  0 <= a <= b -> b <= 500 ->
  fle (Z2F 0) (pointer_x a) = true /\
  fle (pointer_x a) (pointer_x b) = true /\
  fle (pointer_x b) (Z2F canvas_width) = true.
Proof.
  intros Ha Hb. pose proof pointer_table as H. cbv zeta in H.
  apply andb_true_iff in H. destruct H as [H1 H2].
  rewrite forallb_forall in H1, H2.
  assert (Ia : In (Z.to_nat a) (seq 0 501)) by (apply in_seq; lia).
  assert (Ib : In (Z.to_nat b) (seq 0 501)) by (apply in_seq; lia).
  assert (Xa : In (pointer_x a)
                  (map (fun n => pointer_x (Z.of_nat n)) (seq 0 501))).
  { apply in_map_iff. exists (Z.to_nat a). split; [|exact Ia].
    now rewrite Z2Nat.id by lia. }
  assert (Xb : In (pointer_x b)
                  (map (fun n => pointer_x (Z.of_nat n)) (seq 0 501))).
  { apply in_map_iff. exists (Z.to_nat b). split; [|exact Ib].
    now rewrite Z2Nat.id by lia. }
  pose proof (H1 _ Xa) as Ba. pose proof (H1 _ Xb) as Bb.
  apply andb_true_iff in Ba. apply andb_true_iff in Bb.
  split; [apply Ba|]. split; [|apply Bb].
  pose proof (H2 _ Ia) as Hab. rewrite forallb_forall in Hab.
  specialize (Hab _ Ib). apply orb_true_iff in Hab.
  destruct Hab as [Hlt|Hle]; [apply Nat.ltb_lt in Hlt; lia|].
  rewrite !pointer_nth, !Z2Nat.id in Hle by lia. exact Hle.
Qed.

(** X11. The pointer of the meter stays on the canvas and moves to the
    right as the reading grows: for readings [r1 <= r2], its abscissas,
    computed in floating point from the clamped readings, satisfy
    [0 <= x1 <= x2 <= canvas_width]; the ends of the scale are met
    exactly. *)
Theorem X11_pointer_on_canvas (r1 r2 : Z) :
  r1 <= r2 ->
  fle (Z2F 0) (pointer_x (clamp r1)) = true /\
  fle (pointer_x (clamp r1)) (pointer_x (clamp r2)) = true /\
  fle (pointer_x (clamp r2)) (Z2F canvas_width) = true /\
  pointer_x 0 = S754_zero false /\ pointer_x 500 = Z2F canvas_width.
Proof.
  intros H.
  pose proof (clamp_range r1). pose proof (clamp_range r2).
  assert (clamp r1 <= clamp r2) by (unfold clamp; lia).
  destruct (pointer_bounds (clamp r1) (clamp r2)) as (A & B & C); try lia.
  repeat split; try assumption; vm_compute; reflexivity.
Qed.

Lemma X11_witness :
  fle (Z2F 0) (pointer_x (clamp (-7))) = true /\
  fle (pointer_x (clamp (-7))) (pointer_x (clamp 777)) = true /\
  fle (pointer_x (clamp 777)) (Z2F canvas_width) = true /\
  pointer_x 0 = S754_zero false /\ pointer_x 500 = Z2F canvas_width.
Proof. apply (X11_pointer_on_canvas (-7) 777). lia. Defined.

(** ** From the readings to the meter *)

Lemma overall_in d m : overall d = Some m -> In (Some m) (values d).
Proof.
  unfold overall, valid_aqis.
  destruct (flat_map _ (values d)) as [|x t] eqn:E; [discriminate|].
  cbn [Py.max]. intros [= <-].
  destruct (fold_max t x) as [Hm _]. rewrite <- E in Hm.
  apply in_flat_map in Hm. destruct Hm as ([j|] & Hj & Hi); cbn in Hi.
  - destruct Hi as [->|[]]. exact Hj.
  - destruct Hi.
Qed.

Lemma PM25_index_bounds :
  forallb (fun bp => (0 <=? i_lo bp) && (i_hi bp <=? 500)) PM25_BREAKPOINTS
  = true.
Proof. reflexivity. Qed.

Lemma PM10_index_bounds :
  forallb (fun bp => (0 <=? i_lo bp) && (i_hi bp <=? 500)) PM10_BREAKPOINTS
  = true.
Proof. reflexivity. Qed.

Lemma pollutant_index_range k v i :
  readable v -> aqi_for_pollutant k v = Ok (Some i) -> 0 <= i <= 500.
Proof.
  intros Hv. destruct (readable_to_float v Hv) as (x & E & Hx).
  unfold aqi_for_pollutant. rewrite E. cbn [bind].
  destruct (_ || _)%bool; [|destruct (String.eqb _ _)]; intros H.
  - exact (table_range 0 500 x _ i (table_ok_entries _ PM25_table_ok)
             PM25_index_bounds Hx H).
  - exact (table_range 0 500 x _ i (table_ok_entries _ PM10_table_ok)
             PM10_index_bounds Hx H).
  - discriminate.
Qed.

(** X12. The overall index of the results computed from any readings is
    already on the scale of the meter: it lies in [0, 500], so the clamp of
    [update_meter] leaves it as it is. *)
Theorem X12_overall_on_the_scale
        (concs : dict number) (results : dict (option Z)) (m : Z) :
  wf_dict concs -> Forall readable (values concs) ->
  compute_aqi_for_pollutants concs = Ok results ->
  overall results = Some m ->
  0 <= m <= 500 /\
  update_meter m = (m, aqi_to_category m, pointer_x m).
Proof.
  intros Hwf Hfl E Hm.
  destruct (compute_entries concs Hwf Hfl) as (results' & E' & F).
  rewrite E in E'. injection E' as <-.
  assert (Hr : 0 <= m <= 500).
  { apply overall_in in Hm. unfold values in Hm. apply in_map_iff in Hm.
    destruct Hm as ([k r] & Er & Hin). cbn [snd] in Er. subst r.
    clear E Hwf. induction F as [|kv kr l l' [_ H] _ IH]; [destruct Hin|].
    cbn [values map] in Hfl. inversion Hfl as [|? ? Hv Hfl']; subst.
    destruct Hin as [->|Hin]; [|now apply IH].
    cbn [snd] in H. exact (pollutant_index_range _ _ _ Hv H). }
  split; [exact Hr|]. unfold update_meter. now rewrite (clamp_id m Hr).
Qed.

Lemma X12_witness :
  0 <= 99 <= 500 /\ update_meter 99 = (99, aqi_to_category 99, pointer_x 99).
Proof.
  apply (X12_overall_on_the_scale sample
           [ ("PM2.5"%string, Some 99); ("PM10"%string, Some 63);
             ("CO"%string, None) ] 99).
  - exact sample_wf.
  - exact sample_readable.
  - vm_compute. reflexivity.
  - reflexivity.
Defined.

(** ** print_aqi_table *)

Lemma get_in {A : Type} (d : dict A) k v :
  NoDup (keys d) -> In (k, v) d -> get d k = Some v.
Proof.
  induction d as [|[k' v'] d IH]; [intros _ []|].
  cbn [keys map fst get In]. intros Hnd Hin.
  inversion Hnd as [|? ? Hk Hnd']; subst.
  destruct Hin as [E|Hin].
  - injection E as -> ->. now rewrite String.eqb_refl.
  - destruct (String.eqb_spec k k') as [->|_]; [|now apply IH].
    exfalso. apply Hk. unfold keys. apply in_map_iff.
    exists (k', v). auto.
Qed.

Section PrintedRows.
Variable format_conc : number -> string.

(** X13. Printed after [compute_aqi_for_pollutants] on the same readings,
    the table has one row per reading, in order, and each row shows the
    index computed for its own pollutant: the number and its category, or
    "N/A" twice when the index is undefined. *)
Theorem X13_rows_show_the_computed_indices (concs : dict number) :
  wf_dict concs -> Forall readable (values concs) ->
  exists results,
    compute_aqi_for_pollutants concs = Ok results /\
    Forall2
      (fun kv rw =>
         exists r,
           aqi_for_pollutant (fst kv) (snd kv) = Ok r /\
           rw = (fst kv, format_conc (snd kv),
                 match r with Some i => str i | None => "N/A"%string end,
                 match r with
                 | Some i => aqi_category i
                 | None => "N/A"%string
                 end))
      concs (table_rows format_conc concs results).
Proof.
  intros Hwf Hfl.
  destruct (compute_entries concs Hwf Hfl) as (results & E & F).
  exists results. split; [exact E|].
  assert (Hrow : forall kv, In kv concs ->
            exists r, aqi_for_pollutant (fst kv) (snd kv) = Ok r /\
                      get results (fst kv) = Some r).
  { intros [k v] Hin. cbn [fst snd].
    pose proof (get_parallel concs results k F) as Hg.
    now rewrite (get_in concs k v Hwf Hin) in Hg. }
  unfold table_rows. clear F E Hwf Hfl.
  induction concs as [|kv concs IH]; cbn [map]; constructor.
  - destruct (Hrow kv (or_introl eq_refl)) as (r & Hr & Hg).
    exists r. split; [exact Hr|]. rewrite Hg. destruct r; reflexivity.
  - apply IH. intros kv' Hin. apply Hrow. now right.
Qed.

End PrintedRows.

Lemma X13_witness :
  exists results,
    compute_aqi_for_pollutants sample = Ok results /\
    List.length (table_rows (fun _ => "?"%string) sample results) = 3%nat.
Proof.
  destruct (X13_rows_show_the_computed_indices (fun _ => "?"%string) sample
              sample_wf sample_readable) as (results & E & F).
  exists results. split; [exact E|].
  symmetry. exact (Forall2_length F).
Defined.

(** *** The fallback layout *)






Section Fallback.
Variable format_conc : number -> string.


End Fallback.

